(** * CedarCare business assistant: the tool-calling loop of [agent.py]

    A shallow embedding of [agent.py]: the sanitizer [_clean], the two tools
    [record_customer_interest] and [record_feedback], the dispatcher
    [_dispatch_tool], the readiness check [_provider_ready], the history
    adapter [_tuplize], the orchestrator [run_agent] and the loader of the
    business context, [load_business_context].

    Python strings are sequences of code points, so a [str] is a list of
    code points and [len] is [length].  Python values that reach the tools
    come out of [json.loads], so [pyval] has the JSON shapes (and tuples,
    which chat front ends use for history pairs); a dict keeps its entries
    in insertion order, which is the order in which a call [f( **args )]
    looks at its keys.  Everything the program reads from or writes to the
    outside (environment variables, the clock, the log files, standard
    output, the provider) lives in an explicit [world]; code that can raise
    lives in the monad [M], which keeps the effects performed before the
    exception, as Python does.

    Every operation on the outside can fail: [print] raises when standard
    output refuses the text, [Path.cwd()] when the working directory cannot
    be read, and a [with open(...)] block at any of its steps, leaving of
    its line nothing, a part, or all of it.  What the model leaves out:
    there is one thread, so [_WRITE_LOCK] does nothing; the exceptions are
    the subclasses of [Exception].  What the program takes from the
    interpreter and its libraries ([json.loads], [str.lower], the wording
    of the interpreter's own errors) is a parameter, the class [Interp]. *)

From Stdlib Require Import String Ascii PrimFloat.
From Stdlib Require Import List NArith ZArith Bool Lia.
Import ListNotations.

Set Warnings "-register-all".

(** ** Python strings *)

Definition char := N.
Definition str := list char.

(** An ASCII literal of the source, as a [str]. *)
Definition py (s : string) : str := map N_of_ascii (list_ascii_of_string s).

Definition CR : char := 13%N.
Definition LF : char := 10%N.
Definition SP : char := 32%N.
Definition AT : char := 64%N.
Definition DOT : char := 46%N.
Definition QUOTE : char := 34%N.
(** The one-character marker U+2026 that [_clean] appends. *)
Definition ELLIPSIS : char := 8230%N.

Fixpoint str_eqb (a b : str) : bool :=
  match a, b with
  | [], [] => true
  | x :: a', y :: b' => N.eqb x y && str_eqb a' b'
  | _, _ => false
  end.

(** [str.isspace] on one character, which is also the class [\s] of [re] on
    [str] patterns: CPython's table of Unicode whitespace. *)
Definition isspace (c : char) : bool :=
  ((9 <=? c) && (c <=? 13) || (28 <=? c) && (c <=? 32)
   || (c =? 133) || (c =? 160) || (c =? 5760)
   || (8192 <=? c) && (c <=? 8202)
   || (c =? 8232) || (c =? 8233) || (c =? 8239) || (c =? 8287)
   || (c =? 12288))%N.

Fixpoint lstrip (s : str) : str :=
  match s with
  | c :: s' => if isspace c then lstrip s' else s
  | [] => []
  end.

Definition rstrip (s : str) : str := rev (lstrip (rev s)).

(** [s.strip()] *)
Definition strip (s : str) : str := rstrip (lstrip s).

(** [s.replace(old, new)] for one-character [old] and [new]. *)
Definition replace (old new : char) (s : str) : str :=
  map (fun c => if N.eqb c old then new else c) s.

(** [s[:k]], with Python's reading of a negative bound. *)
Definition slice_to (s : str) (k : Z) : str :=
  if (0 <=? k)%Z then firstn (Z.to_nat k) s
  else firstn (Z.to_nat (Z.of_nat (length s) + k)) s.

(** [s.startswith(prefix)] *)
Fixpoint startswith (s prefix : str) : bool :=
  match prefix, s with
  | [], _ => true
  | p :: prefix', c :: s' => N.eqb c p && startswith s' prefix'
  | _ :: _, [] => false
  end.

(** ** Python values *)

Inductive pyval :=
| PNone
| PBool (b : bool)
| PInt (z : Z)
| PFloat (f : float)
| PStr (s : str)
| PList (items : list pyval)
| PTuple (items : list pyval)
| PDict (entries : list (str * pyval)).

(** Truth value of an object, as [if], [not] and [or] test it. *)
Definition truthy (v : pyval) : bool :=
  match v with
  | PNone => false
  | PBool b => b
  | PInt z => negb (Z.eqb z 0)
  | PFloat f => negb (PrimFloat.eqb f PrimFloat.zero)
  | PStr s => match s with [] => false | _ => true end
  | PList l | PTuple l => match l with [] => false | _ => true end
  | PDict d => match d with [] => false | _ => true end
  end.

(** [a or b] *)
Definition py_or (a b : pyval) : pyval := if truthy a then a else b.

(** [v == s] for a string literal [s]. *)
Definition is_str (v : pyval) (s : str) : bool :=
  match v with
  | PStr x => str_eqb x s
  | _ => false
  end.

(** [d.get(key, default)] on the entries of a dict. *)
Fixpoint dict_get (d : list (str * pyval)) (key : str) (default : pyval) : pyval :=
  match d with
  | [] => default
  | (k, v) :: d' => if str_eqb k key then v else dict_get d' key default
  end.

(** ** Exceptions *)

(** An exception object: [type(e).__name__], whether [except TypeError]
    catches it, and [str(e)].  Only subclasses of [Exception] are modelled. *)
Record exn := {
  exn_name : str;
  exn_is_TypeError : bool;
  exn_text : str
}.

Inductive result (A : Type) :=
| Return (a : A)
| Raise (e : exn).
Arguments Return {A} a.
Arguments Raise {A} e.

(** The situations in which the interpreter itself raises in this program. *)
Inductive fault :=
| NoAttribute (v : pyval) (attr : str)
| NotAMapping (fn : str) (v : pyval)
| UnexpectedKeyword (fn key : str)
| MissingArguments (fn : str) (names : list str)
| CannotUnpack (v : pyval).

(** Characters that lowercasing neither changes nor produces. *)
Definition inert (c : char) : bool := isspace c || N.eqb c AT || N.eqb c DOT.

Definition lower_rel (c : char) (chunk : str) : Prop :=
  if inert c then chunk = [c] else Forall (fun d => inert d = false) chunk.

(** What the program takes from the interpreter and its libraries:
    [json.loads], [str.lower], [str(v)] and the wording of the interpreter's
    own error messages.  Lowercasing replaces each character by its
    lowercase form (one or more characters) and leaves whitespace, the at
    sign and the dot alone. *)
Class Interp := {
  json_loads : str -> result pyval;
  str_lower : str -> str;
  py_str : pyval -> str;
  describe : fault -> str;
  str_lower_chunks :
    forall s, exists chunks, str_lower s = concat chunks /\ Forall2 lower_rel s chunks;
  py_str_str : forall s, py_str (PStr s) = s
}.

Definition raise_fault `{Interp} {A : Type} (f : fault) : result A :=
  Raise {| exn_name :=
             match f with
             | NoAttribute _ _ => py "AttributeError"
             | CannotUnpack (PList _) | CannotUnpack (PTuple _)
             | CannotUnpack (PDict _) | CannotUnpack (PStr _) => py "ValueError"
             | _ => py "TypeError"
             end;
           exn_is_TypeError :=
             match f with
             | NoAttribute _ _ => false
             | CannotUnpack (PList _) | CannotUnpack (PTuple _)
             | CannotUnpack (PDict _) | CannotUnpack (PStr _) => false
             | _ => true
             end;
           exn_text := describe f |}.

(** ** The sanitizer *)

(** [s.replace("\r", " ").replace("\n", " ")], the second half of the
    first line of [_clean]. *)
Definition collapse (s : str) : str := replace LF SP (replace CR SP s).

(** [(s[: max_len - 1] + "…") if len(s) > max_len else s], the second line
    of [_clean]. *)
Definition truncate (max_len : Z) (s : str) : str :=
  if (max_len <? Z.of_nat (length s))%Z
  then slice_to s (max_len - 1) ++ [ELLIPSIS]
  else s.

Section Sanitizer.
Context `{Interp}.

(** [_clean(s, max_len)]: [(s or "")] is [s] itself for a truthy value, so a
    truthy value that is not a string has no [strip]. *)
Definition _clean (s : pyval) (max_len : Z) : result str :=
  match py_or s (PStr []) with
  | PStr s0 =>
      Return (truncate max_len (collapse (strip s0)))
  | v => raise_fault (NoAttribute v (py "strip"))
  end.

End Sanitizer.

(** ** Regular expressions *)

(** The fragment of [re] syntax that [EMAIL_RE] is written in: literal
    characters, negated classes (with or without [\s] inside), sequencing
    and repetition.  [Void], [Eps] and [Alt] are there for derivatives. *)
Inductive regex :=
| Void
| Eps
| Chr (c : char)
| NoneOf (cs : list char) (spaces : bool)
| Cat (r1 r2 : regex)
| Alt (r1 r2 : regex)
| Star (r : regex).

(** [r+] *)
Definition Plus (r : regex) : regex := Cat r (Star r).

Definition in_class (cs : list char) (spaces : bool) (c : char) : bool :=
  negb (existsb (N.eqb c) cs) && negb (spaces && isspace c).

Fixpoint nullable (r : regex) : bool :=
  match r with
  | Void => false
  | Eps => true
  | Chr _ => false
  | NoneOf _ _ => false
  | Cat r1 r2 => nullable r1 && nullable r2
  | Alt r1 r2 => nullable r1 || nullable r2
  | Star _ => true
  end.

Fixpoint deriv (c : char) (r : regex) : regex :=
  match r with
  | Void => Void
  | Eps => Void
  | Chr d => if N.eqb c d then Eps else Void
  | NoneOf cs sp => if in_class cs sp c then Eps else Void
  | Cat r1 r2 =>
      if nullable r1 then Alt (Cat (deriv c r1) r2) (deriv c r2)
      else Cat (deriv c r1) r2
  | Alt r1 r2 => Alt (deriv c r1) (deriv c r2)
  | Star r1 => Cat (deriv c r1) (Star r1)
  end.

(** The whole of [s] is a word of [r]. *)
Fixpoint fullmatch (r : regex) (s : str) : bool :=
  match s with
  | [] => nullable r
  | c :: s' => fullmatch (deriv c r) s'
  end.

(** [re.compile("^" r "$").match(s)]: [$] stands at the end of the string,
    and also just before a line feed that ends it. *)
Definition re_match (r : regex) (s : str) : bool :=
  fullmatch r s
  || match rev s with
     | c :: before => N.eqb c LF && fullmatch r (rev before)
     | [] => false
     end.

(** The words of a regular expression. *)
Inductive matches : regex -> str -> Prop :=
| m_eps : matches Eps []
| m_chr c : matches (Chr c) [c]
| m_none cs sp c : in_class cs sp c = true -> matches (NoneOf cs sp) [c]
| m_cat r1 r2 s1 s2 : matches r1 s1 -> matches r2 s2 -> matches (Cat r1 r2) (s1 ++ s2)
| m_alt_l r1 r2 s : matches r1 s -> matches (Alt r1 r2) s
| m_alt_r r1 r2 s : matches r2 s -> matches (Alt r1 r2) s
| m_star_nil r : matches (Star r) []
| m_star_app r s1 s2 : matches r s1 -> matches (Star r) s2 -> matches (Star r) (s1 ++ s2).

(** [[^@\s]] *)
Definition email_atom : regex := NoneOf [AT] true.

(** [EMAIL_RE = re.compile(r"^[^@\s]+@[^@\s]+\.[^@\s]+$")], the anchors
    being those of [re_match]. *)
Definition EMAIL_RE : regex :=
  Cat (Plus email_atom)
      (Cat (Chr AT) (Cat (Plus email_atom) (Cat (Chr DOT) (Plus email_atom)))).

(** ** The outside world *)

(** A tool call as the provider returns it: [tc.id], [tc.function.name] and
    [tc.function.arguments] (text, possibly absent). *)
Record tool_call := {
  tc_id : str;
  fn_name : str;
  fn_arguments : option str
}.

(** The dicts appended to [messages]. *)
Inductive message :=
| ChatMessage (role : str) (content : pyval)
| ToolCallsMessage (tool_calls : list tool_call)
| ToolMessage (tool_call_id name content : str).

(** One entry of [TOOL_SPEC]: the tool's name and its required parameters. *)
Record tool_decl := {
  tool_name : str;
  tool_required : list str
}.

(** A call of [client.chat.completions.create]; both calls of the program
    pass the same temperature, the second one passes no tools. *)
Record request := {
  req_model : str;
  req_messages : list message;
  req_tools : option (list tool_decl)
}.

(** [resp.choices[0].message] *)
Record reply := {
  msg_content : option str;
  msg_tool_calls : option (list tool_call)
}.

(** A line of a log file: a CSV row, a JSON object, or what a write that
    failed half way has left of a line (a proper part of its text). *)
Inductive line :=
| CsvRow (cells : list str)
| JsonLine (obj : list (str * str))
| Torn (whole : line).

Inductive open_mode := ModeW | ModeA.

(** How far a [with path.open(mode) as f:] block has come when it fails:
    the file was not opened (the directory could not be made, or the open
    failed); it was opened and nothing reached it (a missing file exists
    now); part of the line reached it; or the whole line reached it, and
    the flush or the sync failed after that. *)
Inductive residue := Unopened | Opened | Part | Whole.

(** A file operation that fails: what it raises, and how far it has come. *)
Record failure := {
  raised : exn;
  reached : residue
}.

(** What the program does to the outside, in the order it does it. *)
Inductive event :=
| EvPrint (text : str) (failure : option exn)
| EvFile (mode : open_mode) (path : str) (data : line) (failure : option exn)
| EvRequest (r : request).

(** What a turn does not change: the environment variables, the directory
    of the module, the working directory (or the failure of [Path.cwd()],
    when it cannot be read), the prompt built at import time, the clock,
    whether the provider's client can be built, and the provider, which
    answers the latest of the requests it has received. *)
Record setting := {
  environ : str -> option str;
  BASE_DIR : str;
  cwd : result str;
  SYSTEM_PROMPT : str;
  clock : nat -> str;
  client_failure : option exn;
  provider : list request -> result reply
}.

(** The state a turn works on: the setting, the number of clock readings,
    the log files (a missing file is [None]), the outcomes of the calls of
    [print] still to come (standard output may refuse a text: it cannot
    encode it, or it is closed), the outcomes of the file operations still
    to come, and the trace of events so far.  Past the end of either list
    the operations succeed. *)
Record world := {
  outside : setting;
  ticks : nat;
  files : str -> option (list line);
  stdout : list (option exn);
  faults : list (option failure);
  trace : list event
}.

Definition set_ticks (w : world) (n : nat) : world :=
  {| outside := outside w; ticks := n; files := files w;
     stdout := stdout w; faults := faults w; trace := trace w |}.

Definition set_files (w : world) (f : str -> option (list line)) : world :=
  {| outside := outside w; ticks := ticks w; files := f;
     stdout := stdout w; faults := faults w; trace := trace w |}.

Definition set_stdout (w : world) (l : list (option exn)) : world :=
  {| outside := outside w; ticks := ticks w; files := files w;
     stdout := l; faults := faults w; trace := trace w |}.

Definition set_faults (w : world) (l : list (option failure)) : world :=
  {| outside := outside w; ticks := ticks w; files := files w;
     stdout := stdout w; faults := l; trace := trace w |}.

(** Appends one event to the trace. *)
Definition log (w : world) (e : event) : world :=
  {| outside := outside w; ticks := ticks w; files := files w;
     stdout := stdout w; faults := faults w; trace := trace w ++ [e] |}.

(** The requests the provider has received. *)
Fixpoint requests_of (tr : list event) : list request :=
  match tr with
  | [] => []
  | EvRequest r :: tr' => r :: requests_of tr'
  | _ :: tr' => requests_of tr'
  end.

(** The file operations attempted. *)
Fixpoint file_ops (tr : list event) : list (str * option exn) :=
  match tr with
  | [] => []
  | EvFile _ p _ o :: tr' => (p, o) :: file_ops tr'
  | _ :: tr' => file_ops tr'
  end.

(** ** Code that has effects and can raise *)

Definition M (A : Type) : Type := world -> result A * world.

Definition ret {A : Type} (a : A) : M A := fun w => (Return a, w).

Definition bind {A B : Type} (m : M A) (k : A -> M B) : M B :=
  fun w =>
    match m w with
    | (Return a, w') => k a w'
    | (Raise e, w') => (Raise e, w')
    end.

(** A computation without effects. *)
Definition lift {A : Type} (r : result A) : M A := fun w => (r, w).

(** [try: m except Exception as e: h e] *)
Definition try_except {A : Type} (m : M A) (h : exn -> M A) : M A :=
  fun w =>
    match m w with
    | (Return a, w') => (Return a, w')
    | (Raise e, w') => h e w'
    end.

Notation "x <- m ;; k" := (bind m (fun x => k))
  (at level 61, m at next level, right associativity).
Notation "m ;;; k" := (bind m (fun _ => k))
  (at level 61, right associativity).

(** [for x in xs: acc = body acc x] *)
Fixpoint for_each {A B : Type} (xs : list A) (body : B -> A -> M B) (acc : B) : M B :=
  match xs with
  | [] => ret acc
  | x :: xs' => acc' <- body acc x ;; for_each xs' body acc'
  end.

(** [print(text)]: the text goes to standard output, or the call raises. *)
Definition print (text : str) : M unit :=
  fun w =>
    match stdout w with
    | Some e :: rest => (Raise e, log (set_stdout w rest) (EvPrint text (Some e)))
    | _ => (Return tt, log (set_stdout w (tl (stdout w))) (EvPrint text None))
    end.

(** [os.getenv(name)] *)
Definition getenv (name : str) : M (option str) :=
  fun w => (Return (environ (outside w) name), w).

(** [path.exists()] *)
Definition path_exists (path : str) : M bool :=
  fun w => (Return (match files w path with Some _ => true | None => false end), w).

Definition file_put (f : str -> option (list line)) (path : str) (content : list line)
  : str -> option (list line) :=
  fun p => if str_eqb p path then Some content else f p.

(** What a file holds when a block opens it: mode ["a"] keeps the lines of
    a file that exists, mode ["w"] starts from nothing. *)
Definition opened (mode : open_mode) (old : option (list line)) : list line :=
  match mode, old with
  | ModeA, Some l => l
  | _, _ => []
  end.

(** What a block that fails leaves of its file. *)
Definition left_behind (r : residue) (mode : open_mode) (old : option (list line))
    (data : line) : option (list line) :=
  match r with
  | Unopened => old
  | Opened => Some (opened mode old)
  | Part => Some (opened mode old ++ [Torn data])
  | Whole => Some (opened mode old ++ [data])
  end.

(** The files after a block on [path] that fails. *)
Definition file_left (f : str -> option (list line)) (path : str) (r : residue)
    (mode : open_mode) (data : line) : str -> option (list line) :=
  fun p => if str_eqb p path then left_behind r mode (f path) data else f p.

(** One [with path.open(mode) as f:] block that writes a line, flushes and
    syncs.  When it fails, the file is left as far as the block has come. *)
Definition write_line (mode : open_mode) (path : str) (data : line) : M unit :=
  fun w =>
    match faults w with
    | Some x :: rest =>
        (Raise (raised x),
         log (set_files (set_faults w rest)
                        (file_left (files w) path (reached x) mode data))
             (EvFile mode path data (Some (raised x))))
    | _ =>
        (Return tt,
         log (set_files (set_faults w (tl (faults w)))
                        (file_put (files w) path (opened mode (files w path) ++ [data])))
             (EvFile mode path data None))
    end.

(** [a / name] on paths. *)
Definition path_join (a : str) (name : string) : str := a ++ py "/" ++ py name.

Definition LOG_DIR (w : world) : str := path_join (BASE_DIR (outside w)) "logs".
Definition LEADS_CSV (w : world) : str := path_join (LOG_DIR w) "leads.csv".
Definition LEADS_JSONL (w : world) : str := path_join (LOG_DIR w) "leads.jsonl".
Definition FEEDBACK_JSONL (w : world) : str := path_join (LOG_DIR w) "feedback.jsonl".

(** [Path.cwd()]: the working directory, or the failure to read it. *)
Definition getcwd : M str := fun w => (cwd (outside w), w).

(** [dir / "logs" / "feedback.jsonl"], for the working directory [dir]. *)
Definition fallback_path (dir : str) : str :=
  path_join (path_join dir "logs") "feedback.jsonl".

(** [_utc_iso()] *)
Definition _utc_iso : M str :=
  fun w => (Return (clock (outside w) (ticks w)), set_ticks w (S (ticks w))).

(** [_append_jsonl(path, obj)]: the parent directory, the open, the write,
    the flush and the sync are one file operation, which can fail at each
    of these steps. *)
Definition _append_jsonl (path : str) (obj : list (str * str)) : M unit :=
  write_line ModeA path (JsonLine obj).

(** A module-level constant or a value of the process, read in passing. *)
Definition asks {A : Type} (f : world -> A) : M A := fun w => (Return (f w), w).

(** ** The tools *)

Section Tools.
Context `{Interp}.

Definition SEP : str := py " | ".

(** [record_customer_interest(email, name, message)] *)
Definition record_customer_interest (email name message : pyval) : M str :=
  email <- lift (_clean email 200) ;;
  let email := str_lower email in
  name <- lift (_clean name 200) ;;
  message <- lift (_clean (py_or message (PStr (py "General inquiry"))) 800) ;;
  if negb (re_match EMAIL_RE email) then ret (py "Invalid email address.")
  else if negb (truthy (PStr name)) then ret (py "Please provide a name.")
  else
    ts <- _utc_iso ;;
    print (py "[LEAD] " ++ ts ++ SEP ++ email ++ SEP ++ name ++ SEP ++ message) ;;;
    let entry := [(py "timestamp", ts); (py "email", email);
                  (py "name", name); (py "message", message)] in
    csv <- asks LEADS_CSV ;;
    present <- path_exists csv ;;
    (if negb present
     then write_line ModeW csv
            (CsvRow [py "timestamp"; py "email"; py "name"; py "message"])
     else ret tt) ;;;
    write_line ModeA csv (CsvRow [ts; email; name; message]) ;;;
    jsonl <- asks LEADS_JSONL ;;
    _append_jsonl jsonl entry ;;;
    ret (py "Lead saved.").

(** The arrow of the trace lines of [record_feedback]. *)
Definition ARROW : char := 8594%N.

(** [record_feedback(question)] *)
Definition record_feedback (question : pyval) : M str :=
  q <- lift (_clean question 1000) ;;
  if negb (truthy (PStr q)) then ret (py "Feedback requires a non-empty question.")
  else
    ts <- _utc_iso ;;
    print (py "[FEEDBACK] " ++ ts ++ SEP ++ q) ;;;
    let entry := [(py "timestamp", ts); (py "question", q)] in
    try_except
      (primary <- asks FEEDBACK_JSONL ;;
       _append_jsonl primary entry ;;;
       print (py "[FEEDBACK" ++ [ARROW] ++ primary ++ py "] ok") ;;;
       ret (py "Feedback recorded."))
      (fun e =>
         try_except
           (dir <- getcwd ;;
            let fallback := fallback_path dir in
            _append_jsonl fallback entry ;;;
            print (py "[FEEDBACK" ++ [ARROW] ++ fallback ++ py "] fallback ok") ;;;
            ret (py "Feedback recorded (fallback path used: " ++ fallback ++ py ")"))
           (fun e2 =>
              ret (py "Failed to record feedback: " ++ exn_text e
                   ++ py " | fallback error: " ++ exn_text e2))).

(** ** Tool declarations and dispatch *)

Definition TOOL_SPEC : list tool_decl :=
  [ {| tool_name := py "record_customer_interest";
       tool_required := [py "email"; py "name"; py "message"] |};
    {| tool_name := py "record_feedback";
       tool_required := [py "question"] |} ].

(** The check a call [fn( **args )] makes before the body of [fn] runs, for
    a function whose parameters are all required: the value is a mapping,
    every key names a parameter, and every parameter has a key. *)
Definition keywords (fn : str) (params : list str) (args : pyval)
  : result (list (str * pyval)) :=
  match args with
  | PDict d =>
      match find (fun kv => negb (existsb (str_eqb (fst kv)) params)) d with
      | Some (k, _) => raise_fault (UnexpectedKeyword fn k)
      | None =>
          match filter (fun p => negb (existsb (fun kv => str_eqb (fst kv) p) d)) params with
          | [] => Return d
          | missing => raise_fault (MissingArguments fn missing)
          end
      end
  | v => raise_fault (NotAMapping fn v)
  end.

(** The first part of [_dispatch_tool]: what [args] is when the handlers
    are reached. *)
Definition normalize_args (args : pyval) : pyval :=
  match args with
  | PStr s =>
      match (if truthy args then json_loads s else Return (PDict [])) with
      | Return v => v
      | Raise _ => PDict []
      end
  | PDict _ => args
  | _ => PDict []
  end.

(** [_dispatch_tool(name, args)] *)
Definition _dispatch_tool (name : str) (args : pyval) : M str :=
  let args := normalize_args args in
  try_except
    (if str_eqb name (py "record_customer_interest") then
       kw <- lift (keywords name [py "email"; py "name"; py "message"] args) ;;
       record_customer_interest (dict_get kw (py "email") PNone)
                                (dict_get kw (py "name") PNone)
                                (dict_get kw (py "message") PNone)
     else if str_eqb name (py "record_feedback") then
       kw <- lift (keywords name [py "question"] args) ;;
       record_feedback (dict_get kw (py "question") PNone)
     else ret (py "Unknown tool: " ++ name))
    (fun e =>
       if exn_is_TypeError e
       then ret (py "Tool '" ++ name ++ py "' argument error: " ++ exn_text e)
       else ret (py "Tool '" ++ name ++ py "' failed: " ++ exn_text e)).

(** ** Provider check *)

(** [os.getenv("OPENAI_API_KEY") or ""] *)
Definition credential (w : world) : str :=
  match environ (outside w) (py "OPENAI_API_KEY") with
  | Some v => v
  | None => []
  end.

(** [_provider_ready()] *)
Definition _provider_ready (w : world) : bool :=
  let k := strip (credential w) in
  (startswith k (py "sk-") || startswith k (py "sk-proj-"))
  && (40 <? length k)%nat.

Definition _SETUP_MSG : str :=
  py "(Setup needed) No API key visible to this Python process. Set OPENAI_API_KEY and re-run.".

(** ** History adapter *)

(** [(u, a) = item]: a two-element list or tuple gives its elements, a dict
    with two keys gives its keys, a two-character string its characters. *)
Definition unpack2 (item : pyval) : result (pyval * pyval) :=
  match item with
  | PList [u; a] | PTuple [u; a] => Return (u, a)
  | PDict [(k1, _); (k2, _)] => Return (PStr k1, PStr k2)
  | PStr [c1; c2] => Return (PStr [c1], PStr [c2])
  | v => raise_fault (CannotUnpack v)
  end.

Fixpoint map_result {A B : Type} (f : A -> result B) (xs : list A) : result (list B) :=
  match xs with
  | [] => Return []
  | x :: xs' =>
      match f x with
      | Raise e => Raise e
      | Return y =>
          match map_result f xs' with
          | Raise e => Raise e
          | Return ys => Return (y :: ys)
          end
      end
  end.

(** The body of the loop over role-tagged messages, on the loop's state
    [(pairs, last_user)]. *)
Definition tuplize_step (st : list (pyval * pyval) * pyval) (m : pyval)
  : result (list (pyval * pyval) * pyval) :=
  let (pairs, last_user) := st in
  match m with
  | PDict d =>
      let role := dict_get d (py "role") PNone in
      let content := dict_get d (py "content") (PStr []) in
      if is_str role (py "user") then Return (pairs, content)
      else if is_str role (py "assistant")
           then Return (pairs ++ [(py_or last_user (PStr []), content)], PNone)
           else Return (pairs, last_user)
  | v => raise_fault (NoAttribute v (py "get"))
  end.

Fixpoint tuplize_loop (ms : list pyval) (st : list (pyval * pyval) * pyval)
  : result (list (pyval * pyval)) :=
  match ms with
  | [] => Return (fst st)
  | m :: ms' =>
      match tuplize_step st m with
      | Raise e => Raise e
      | Return st' => tuplize_loop ms' st'
      end
  end.

(** [_tuplize(history)]; [history] is [None] or a list. *)
Definition _tuplize (history : option (list pyval)) : result (list (pyval * pyval)) :=
  match history with
  | None | Some [] => Return []
  | Some ((first :: _) as h) =>
      if match first with
         | PList [_; _] | PTuple [_; _] => true
         | _ => false
         end
      then map_result
             (fun item =>
                match unpack2 item with
                | Raise e => Raise e
                | Return (u, a) =>
                    Return (PStr (py_str (py_or u (PStr []))),
                            PStr (py_str (py_or a (PStr []))))
                end) h
      else tuplize_loop h ([], PNone)
  end.

(** ** Main agent *)

(** [OpenAI()] *)
Definition make_client : M unit :=
  fun w =>
    match client_failure (outside w) with
    | Some e => (Raise e, w)
    | None => (Return tt, w)
    end.

(** [client.chat.completions.create(...)] followed by
    [.choices[0].message]: the request reaches the provider, which answers
    or fails. *)
Definition chat_create (r : request) : M reply :=
  fun w =>
    let w' := log w (EvRequest r) in
    (provider (outside w) (requests_of (trace w')), w').

(** The messages that the normalized history expands to. *)
Definition history_messages (pairs : list (pyval * pyval)) : list message :=
  flat_map
    (fun ua =>
       (if truthy (fst ua) then [ChatMessage (py "user") (fst ua)] else [])
       ++ (if truthy (snd ua) then [ChatMessage (py "assistant") (snd ua)] else []))
    pairs.

(** [json.loads(tc.function.arguments or "{}")] under its [try]. *)
Definition parse_arguments (tc : tool_call) : pyval :=
  match json_loads (match fn_arguments tc with
                    | Some (c :: a) => c :: a
                    | _ => py "{}"
                    end) with
  | Return v => v
  | Raise _ => PDict []
  end.

(** The body of the loop over [msg.tool_calls]. *)
Definition tool_step (messages : list message) (tc : tool_call) : M (list message) :=
  let args := parse_arguments tc in
  result <- _dispatch_tool (fn_name tc) args ;;
  ret (messages ++ [ToolMessage (tc_id tc) (fn_name tc) result]).

(** [content or "(no response)"] *)
Definition content_or_placeholder (m : reply) : str :=
  match msg_content m with
  | Some (c :: s) => c :: s
  | _ => py "(no response)"
  end.

(** [run_agent(user_text, history)] *)
Definition run_agent (user_text : str) (history : option (list pyval)) : M str :=
  fun w =>
    if negb (_provider_ready w) then (Return _SETUP_MSG, w)
    else
      try_except
        (make_client ;;;
         model <- getenv (py "OPENAI_MODEL") ;;
         let model := match model with Some m => m | None => py "gpt-4o-mini" end in
         prompt <- asks (fun w => SYSTEM_PROMPT (outside w)) ;;
         pairs <- lift (_tuplize history) ;;
         let messages :=
           [ChatMessage (py "system") (PStr prompt)]
           ++ history_messages pairs
           ++ [ChatMessage (py "user") (PStr user_text)] in
         msg <- chat_create {| req_model := model; req_messages := messages;
                               req_tools := Some TOOL_SPEC |} ;;
         match msg_tool_calls msg with
         | Some (tc :: tcs) =>
             let messages := messages ++ [ToolCallsMessage (tc :: tcs)] in
             messages <- for_each (tc :: tcs) tool_step messages ;;
             final <- chat_create {| req_model := model; req_messages := messages;
                                     req_tools := None |} ;;
             ret (content_or_placeholder final)
         | _ => ret (content_or_placeholder msg)
         end)
        (fun e => ret (py "(Agent error) " ++ exn_name e ++ py ": " ++ exn_text e))
        w.

End Tools.

(** ** Business context *)

(** The documents as the loader finds them: for a path, whether a text file
    is there and what reading it gives; whether [pypdf] could be imported;
    and, for a path, whether a PDF is there, what opening it gives, and what
    extracting the text of each page gives ([None]: the page has none). *)
Record documents := {
  text_files : str -> option (result str);
  pdf_reader : bool;
  pdf_files : str -> option (result (list (result (option str))))
}.

(** [sep.join(parts)] *)
Fixpoint join (sep : str) (parts : list str) : str :=
  match parts with
  | [] => []
  | [p] => p
  | p :: rest => p ++ sep ++ join sep rest
  end.

(** [_read_txt(path)] *)
Definition _read_txt (docs : documents) (path : str) : result str :=
  match text_files docs path with
  | Some r => r
  | None => Return []
  end.

(** [page.extract_text() or ""] *)
Definition page_text (page : result (option str)) : result str :=
  match page with
  | Raise e => Raise e
  | Return (Some t) => Return t
  | Return None => Return []
  end.

(** [_read_pdf(path)] *)
Definition _read_pdf (docs : documents) (path : str) : result str :=
  if negb (pdf_reader docs) then Return []
  else
    match pdf_files docs path with
    | None => Return []
    | Some (Raise e) => Raise e
    | Some (Return pages) =>
        match map_result page_text pages with
        | Raise e => Raise e
        | Return out => Return (strip (join [LF] out))
        end
    end.

(** [load_business_context(txt_path, pdf_path)] *)
Definition load_business_context (docs : documents) (txt_path pdf_path : str)
  : result str :=
  match _read_txt docs txt_path with
  | Raise e => Raise e
  | Return txt =>
      match _read_pdf docs pdf_path with
      | Raise e => Raise e
      | Return pdf =>
          Return (strip (join [LF; LF] (filter (fun s => truthy (PStr s)) [txt; pdf])))
      end
  end.

(** * The words of the properties *)

(** A string whose first character, if any, is not whitespace. *)
Definition no_lead (s : str) : Prop :=
  match s with
  | c :: _ => isspace c = false
  | [] => True
  end.

(** A string that [strip] leaves alone. *)
Definition trimmed (s : str) : Prop := no_lead s /\ no_lead (rev s).

(** A character of the class [[^@\s]]. *)
Definition atom (c : char) : Prop := c <> AT /\ isspace c = false.

(** The characters of a string that lowercasing leaves alone. *)
Definition skeleton (s : str) : str := filter inert s.

(** The domain part: what follows the first at sign. *)
Fixpoint after_at (s : str) : str :=
  match s with
  | [] => []
  | c :: s' => if N.eqb c AT then s' else after_at s'
  end.

Definition has_at (s : str) : bool := existsb (fun c => N.eqb c AT) s.

Definition has_space (s : str) : bool := existsb isspace s.

(** The email has whitespace inside that is still there after [_clean]
    has cut it to 200 characters. *)
Definition surviving_space (email : str) : Prop :=
  let t := strip email in
  has_space (if (200 <? length t)%nat then firstn 199 t else t) = true.

(** The message that [record_customer_interest] cleans: the argument, or
    the default text when the argument is empty. *)
Definition default_message (message : str) : str :=
  match message with
  | [] => py "General inquiry"
  | _ => message
  end.

(** A step from one world to a later one that leaves the setting alone and
    sends nothing to the provider. *)
Definition quiet (w w' : world) : Prop :=
  outside w' = outside w
  /\ exists evs, trace w' = trace w ++ evs /\ requests_of evs = [].

(** A computation all of whose runs are quiet. *)
Definition local {A : Type} (m : M A) : Prop := forall w, quiet w (snd (m w)).

(** The tool-tagged messages for the calls and their results. *)
Definition tool_messages (tcs : list tool_call) (rs : list str) : list message :=
  map (fun p => ToolMessage (tc_id (fst p)) (fn_name (fst p)) (snd p)) (combine tcs rs).

(** A role-tagged message with text content. *)
Record turn := {
  role : str;
  content : str
}.

(** The adapter as the specification words it: keep the most recent
    unmatched user message; at an assistant message emit the pair and clear
    the pending user; at the end a pending user is dropped.  An assistant
    message with no pending user is paired with the empty string, as the
    program does. *)
Fixpoint pair_up (pending : option str) (ts : list turn) : list (str * str) :=
  match ts with
  | [] => []
  | t :: ts' =>
      if str_eqb (role t) (py "user") then pair_up (Some (content t)) ts'
      else if str_eqb (role t) (py "assistant")
           then (match pending with Some u => u | None => [] end, content t)
                :: pair_up None ts'
           else pair_up pending ts'
  end.

(** The dict [m] is the role-tagged message [t]. *)
Definition tagged (m : pyval) (t : turn) : Prop :=
  exists d, m = PDict d
            /\ dict_get d (py "role") PNone = PStr (role t)
            /\ dict_get d (py "content") (PStr []) = PStr (content t).

Definition as_values (p : str * str) : pyval * pyval := (PStr (fst p), PStr (snd p)).

Definition pending_value (pending : option str) : pyval :=
  match pending with
  | Some u => PStr u
  | None => PNone
  end.

Section Vocabulary.
Context `{Interp}.

(** The email as [record_customer_interest] validates it. *)
Definition normalized_email (email : str) : str :=
  str_lower (truncate 200 (collapse (strip email))).

(** The registry that [_dispatch_tool] spells out with its two [if]s: for a
    known name, the parameters of the handler and its call on the checked
    keywords. *)
Definition handler_of (name : str)
  : option (list str * (list (str * pyval) -> M str)) :=
  if str_eqb name (py "record_customer_interest") then
    Some ([py "email"; py "name"; py "message"],
          fun kw => record_customer_interest (dict_get kw (py "email") PNone)
                                             (dict_get kw (py "name") PNone)
                                             (dict_get kw (py "message") PNone))
  else if str_eqb name (py "record_feedback") then
    Some ([py "question"], fun kw => record_feedback (dict_get kw (py "question") PNone))
  else None.

(** The tool calls of one round, dispatched one after the other: each call
    runs in the world the previous call has left and returns a string. *)
Inductive round : world -> list tool_call -> list str -> world -> Prop :=
| round_done w : round w [] [] w
| round_step w tc tcs r w1 rs w2 :
    _dispatch_tool (fn_name tc) (parse_arguments tc) w = (Return r, w1) ->
    round w1 tcs rs w2 ->
    round w (tc :: tcs) (r :: rs) w2.

End Vocabulary.

(** ** Shapes, writes and turns *)

(** [EMAIL_RE] accepts: a local part, an at sign, a domain, a dot, a rest *)
Definition email_shape (s : str) : Prop :=
  exists l d t,
    s = l ++ AT :: d ++ DOT :: t
    /\ l <> [] /\ d <> [] /\ t <> []
    /\ Forall atom l /\ Forall atom d /\ Forall atom t.

(** The next [k] file operations succeed. *)
Definition next_succeed (k : nat) (w : world) : Prop :=
  Forall (fun o => o = None) (firstn k (faults w)).

(** The next [k] calls of [print] succeed. *)
Definition prints_succeed (k : nat) (w : world) : Prop :=
  Forall (fun o => o = None) (firstn k (stdout w)).

(** The world after a call of [print] that has succeeded. *)
Definition printed (text : str) (w : world) : world :=
  log (set_stdout w (tl (stdout w))) (EvPrint text None).

(** The world after a file operation that has succeeded. *)
Definition written (mode : open_mode) (path : str) (data : line) (w : world) : world :=
  log (set_files (set_faults w (tl (faults w)))
         (file_put (files w) path (opened mode (files w path) ++ [data])))
      (EvFile mode path data None).

(** The world after a file operation that has failed with [x]. *)
Definition broken (mode : open_mode) (path : str) (data : line) (x : failure) (w : world)
  : world :=
  log (set_files (set_faults w (tl (faults w)))
         (file_left (files w) path (reached x) mode data))
      (EvFile mode path data (Some (raised x))).

Definition or_nil (o : option (list line)) : list line :=
  match o with Some l => l | None => [] end.

(** The answers of [record_feedback] after a failure. *)
Definition fallback_used (path : str) : str :=
  py "Feedback recorded (fallback path used: " ++ path ++ py ")".

Definition both_failed (e e2 : exn) : str :=
  py "Failed to record feedback: " ++ exn_text e
  ++ py " | fallback error: " ++ exn_text e2.

(** What [record_feedback] does once the primary write or the print after
    it has failed with [e]. *)
Definition fall_back (entry : list (str * str)) (e : exn) : M str :=
  try_except
    (dir <- getcwd ;;
     _append_jsonl (fallback_path dir) entry ;;;
     print (py "[FEEDBACK" ++ [ARROW] ++ fallback_path dir ++ py "] fallback ok") ;;;
     ret (fallback_used (fallback_path dir)))
    (fun e2 => ret (both_failed e e2)).

(** The question as [record_feedback] stores it. *)
Definition stored_question (question : str) : str :=
  truncate 1000 (collapse (strip question)).

(** The keys of a dict are exactly the given parameters. *)
Definition exact_keys (d : list (str * pyval)) (params : list str) : Prop :=
  forall k, In k (map fst d) <-> In k params.

(** A value that is truthy and no string: [_clean] fails on it. *)
Definition no_strip (v : pyval) : Prop := truthy v = true /\ forall s, v <> PStr s.

(** Log files only grow: a file that exists keeps what it holds. *)
Definition grows (w w' : world) : Prop :=
  forall p l, files w p = Some l -> exists l', files w' p = Some (l ++ l').

(** A computation that only appends to the log files. *)
Definition appending {A : Type} (m : M A) : Prop := forall w, grows w (snd (m w)).

(** [os.getenv("OPENAI_MODEL", "gpt-4o-mini")] *)
Definition model_name (w : world) : str :=
  match environ (outside w) (py "OPENAI_MODEL") with
  | Some m => m
  | None => py "gpt-4o-mini"
  end.

(** [f"(Agent error) {type(e).__name__}: {e}"] *)
Definition agent_error (e : exn) : str :=
  py "(Agent error) " ++ exn_name e ++ py ": " ++ exn_text e.

(** What a turn may do to the world: leave the setting alone, append to log
    files, and send at most two requests. *)
Definition bounded_turn (w v : world) : Prop :=
  outside v = outside w
  /\ grows w v
  /\ exists evs, trace v = trace w ++ evs /\ (length (requests_of evs) <= 2)%nat.

(** One side of a history pair: text, or [None]. *)
Definition side (o : option str) : pyval :=
  match o with
  | Some s => PStr s
  | None => PNone
  end.

Definition side_text (o : option str) : str :=
  match o with
  | Some s => s
  | None => []
  end.

(** The item is the pair [p], as a list or as a tuple. *)
Definition pair_item (item : pyval) (p : option str * option str) : Prop :=
  item = PList [side (fst p); side (snd p)]
  \/ item = PTuple [side (fst p); side (snd p)].

(** One exchange as two role-tagged messages. *)
Definition exchange (ua : str * str) : list turn :=
  [ {| role := py "user"; content := fst ua |};
    {| role := py "assistant"; content := snd ua |} ].

Definition turn_message (t : turn) : message := ChatMessage (role t) (PStr (content t)).

(** [tc.function.arguments or "{}"] *)
Definition arguments_text (tc : tool_call) : str :=
  match fn_arguments tc with
  | Some (c :: a) => c :: a
  | _ => py "{}"
  end.

Section Reports.
Context `{Interp}.

(** What [_dispatch_tool] answers when the arguments do not fit. *)
Definition argument_error (name : str) (f : fault) : str :=
  py "Tool '" ++ name ++ py "' argument error: " ++ describe f.

(** The messages of the first request of a turn. *)
Definition first_messages (user_text : str) (pairs : list (pyval * pyval)) (w : world)
  : list message :=
  [ChatMessage (py "system") (PStr (SYSTEM_PROMPT (outside w)))]
  ++ history_messages pairs
  ++ [ChatMessage (py "user") (PStr user_text)].

(** The first request of a turn. *)
Definition first_request (user_text : str) (pairs : list (pyval * pyval)) (w : world)
  : request :=
  {| req_model := model_name w;
     req_messages := first_messages user_text pairs w;
     req_tools := Some TOOL_SPEC |}.

End Reports.

(** * An interpreter and worlds to run the program in *)

(** [str.lower] on strings of ASCII characters (and of characters without
    case, such as the ellipsis). *)
Definition ascii_lower_char (c : char) : char :=
  if ((65 <=? c) && (c <=? 90))%N then (c + 32)%N else c.

Definition ascii_lower (s : str) : str := map ascii_lower_char s.

(** A JSON string literal without escapes. *)
Definition quoted (s : string) : str := QUOTE :: py s ++ [QUOTE].

(** The text [{"question": "Do you accept Bitcoin?"}]. *)
Definition feedback_args : str :=
  py "{" ++ quoted "question" ++ py ": " ++ quoted "Do you accept Bitcoin?" ++ py "}".

(** [json.loads] on the texts of the runs below; every other text of these
    runs is not JSON. *)
Definition sample_json_loads (s : str) : result pyval :=
  if str_eqb s (py "{}") then Return (PDict [])
  else if str_eqb s (py "[1]") then Return (PList [PInt 1])
  else if str_eqb s feedback_args
       then Return (PDict [(py "question", PStr (py "Do you accept Bitcoin?"))])
       else Raise {| exn_name := py "JSONDecodeError";
                     exn_is_TypeError := false;
                     exn_text := py "Expecting value: line 1 column 1 (char 0)" |}.

Definition sample_str (v : pyval) : str :=
  match v with
  | PStr s => s
  | PNone => py "None"
  | PBool true => py "True"
  | PBool false => py "False"
  | _ => py "<object>"
  end.

(** [type(v).__name__] *)
Definition type_name (v : pyval) : str :=
  match v with
  | PNone => py "NoneType"
  | PBool _ => py "bool"
  | PInt _ => py "int"
  | PFloat _ => py "float"
  | PStr _ => py "str"
  | PList _ => py "list"
  | PTuple _ => py "tuple"
  | PDict _ => py "dict"
  end.

(** A number in decimal digits. *)
Fixpoint decimal_digits (fuel n : nat) (acc : str) : str :=
  match fuel with
  | O => acc
  | S fuel' =>
      let acc' := (48 + N.of_nat (n mod 10))%N :: acc in
      if (n / 10 =? 0)%nat then acc' else decimal_digits fuel' (n / 10) acc'
  end.

Definition decimal (n : nat) : str := decimal_digits (S n) n [].

Definition quote_name (n : str) : str := py "'" ++ n ++ py "'".

Fixpoint more_names (names : list str) : str :=
  match names with
  | [] => []
  | [n] => py ", and " ++ quote_name n
  | n :: rest => py ", " ++ quote_name n ++ more_names rest
  end.

(** The names in the error about missing arguments: ['a'], ['a' and 'b'],
    ['a', 'b', and 'c']. *)
Definition name_list (names : list str) : str :=
  match names with
  | [] => []
  | [n] => quote_name n
  | [n; m] => quote_name n ++ py " and " ++ quote_name m
  | n :: rest => quote_name n ++ more_names rest
  end.

(** The number of items that unpacking finds in a value that has items. *)
Definition item_count (v : pyval) : option nat :=
  match v with
  | PStr s => Some (length s)
  | PList l | PTuple l => Some (length l)
  | PDict d => Some (length d)
  | _ => None
  end.

(** The interpreter's messages, after the wording of CPython 3.11 (the
    texts vary with the version), with the module imported as [agent]. *)
Definition sample_describe (f : fault) : str :=
  match f with
  | NoAttribute v attr =>
      py "'" ++ type_name v ++ py "' object has no attribute '" ++ attr ++ py "'"
  | NotAMapping fn v =>
      py "agent." ++ fn ++ py "() argument after ** must be a mapping, not " ++ type_name v
  | UnexpectedKeyword fn key =>
      fn ++ py "() got an unexpected keyword argument '" ++ key ++ py "'"
  | MissingArguments fn names =>
      fn ++ py "() missing " ++ decimal (length names)
      ++ py " required positional argument"
      ++ (if (length names =? 1)%nat then [] else py "s")
      ++ py ": " ++ name_list names
  | CannotUnpack v =>
      match item_count v with
      | None => py "cannot unpack non-iterable " ++ type_name v ++ py " object"
      | Some n =>
          if (n <? 2)%nat
          then py "not enough values to unpack (expected 2, got " ++ decimal n ++ py ")"
          else py "too many values to unpack (expected 2)"
      end
  end.

(** The interpreter of the runs.  Lowercasing ASCII letters changes no
    whitespace, at sign or dot and produces none. *)
Definition sample_interp : Interp.
Proof.
  refine {| json_loads := sample_json_loads;
            str_lower := ascii_lower;
            py_str := sample_str;
            describe := sample_describe;
            str_lower_chunks := _;
            py_str_str := fun s => eq_refl |}.
  assert (Letters : forall c : char, (65 <= c <= 122)%N -> inert c = false).
  { intros c R. unfold inert, isspace, AT, DOT.
    repeat match goal with
           | |- context [(?a <=? ?b)%N] => destruct (N.leb_spec a b); try lia
           | |- context [(?a =? ?b)%N] => destruct (N.eqb_spec a b); try lia
           end;
      try reflexivity. }
  intro s. exists (map (fun c => [ascii_lower_char c]) s). split.
  - unfold ascii_lower. induction s as [|c s IH]; simpl; [reflexivity|now f_equal].
  - induction s as [|c s IH]; simpl; constructor; [|exact IH].
    unfold lower_rel, ascii_lower_char.
    destruct (N.leb_spec 65 c), (N.leb_spec c 90); simpl;
      try (destruct (inert c) eqn:E; [reflexivity|];
           constructor; [exact E|constructor]).
    rewrite Letters by lia. constructor; [|constructor]. apply Letters. lia.
Defined.

(** A key that [_provider_ready] accepts: the prefix and 45 more characters. *)
Definition sample_key : str := py "sk-" ++ repeat 97%N 45.

Definition sample_clock (n : nat) : str :=
  py "2025-01-01T09:00:0" ++ [(48 + N.of_nat n)%N] ++ py "+00:00".

(** A setting with the given credential and provider. *)
Definition sample_setting (key : option str) (answers : list request -> result reply)
  : setting :=
  {| environ := fun name => if str_eqb name (py "OPENAI_API_KEY") then key else None;
     BASE_DIR := py "/app";
     cwd := Return (py "/srv");
     SYSTEM_PROMPT := py "You are the official assistant for CedarCare Wellness Clinics.";
     clock := sample_clock;
     client_failure := None;
     provider := answers |}.

(** A file operation that fails before it opens its file. *)
Definition refused (e : exn) : option failure :=
  Some {| raised := e; reached := Unopened |}.

(** A world with no log file yet, nothing printed and nothing sent, whose
    standard output takes every text. *)
Definition fresh_world (s : setting) (outcomes : list (option failure)) : world :=
  {| outside := s; ticks := 0; files := fun _ => None;
     stdout := []; faults := outcomes; trace := [] |}.

(** A provider that answers every request with the same text. *)
Definition plain_provider (text : string) (_ : list request) : result reply :=
  Return {| msg_content := Some (py text); msg_tool_calls := None |}.

Definition sample_world : world :=
  fresh_world (sample_setting (Some sample_key) (plain_provider "We're open 9-5")) [].

(** An address of 202 characters whose only whitespace is its 201st. *)
Definition long_email : str := py "a@b." ++ repeat 99%N 196 ++ py " d".

(** The header of the CSV file. *)
Definition header_row : line :=
  CsvRow [py "timestamp"; py "email"; py "name"; py "message"].

(** C3 as the specification words it, for a message and the value stored for it:
    the length is that of the argument, and nothing but the line breaks
    changes in a short message. *)
Definition truncation_as_claimed (message stored : str) : Prop :=
  ((800 < length message)%nat ->
   length stored = 800%nat /\ exists p, stored = p ++ [ELLIPSIS])
  /\ ((length message <= 800)%nat -> stored = collapse message).

Definition padded_message : str := repeat SP 10 ++ repeat 97%N 795.

(** A world whose credential has a space before the key. *)
Definition padded_key_world : world :=
  fresh_world (sample_setting (Some (SP :: sample_key)) (plain_provider "We're open 9-5")) [].

(** A world whose credential is not a provider key. *)
Definition wrong_key_world : world :=
  fresh_world (sample_setting (Some (py "pk-" ++ repeat 97%N 45))
                 (plain_provider "We're open 9-5")) [].

(** C7 as the specification words it, on the credential value itself. *)
Definition unusable_as_claimed (v : str) : Prop :=
  v = []
  \/ (startswith v (py "sk-") = false /\ startswith v (py "sk-proj-") = false)
  \/ (length v <= 40)%nat.

(** Three tool calls in one round: a tool that does not exist, a lead
    without its arguments, and a question for the team. *)
Definition call_1 : tool_call :=
  {| tc_id := py "call_1"; fn_name := py "lookup_hours"; fn_arguments := Some (py "{}") |}.

Definition call_2 : tool_call :=
  {| tc_id := py "call_2"; fn_name := py "record_customer_interest";
     fn_arguments := Some (py "{}") |}.

Definition call_3 : tool_call :=
  {| tc_id := py "call_3"; fn_name := py "record_feedback";
     fn_arguments := Some feedback_args |}.

Definition sample_calls : list tool_call := [call_1; call_2; call_3].

(** A provider that asks for [sample_calls] first and answers in text next. *)
Definition tool_provider (reqs : list request) : result reply :=
  match reqs with
  | [_] => Return {| msg_content := None; msg_tool_calls := Some sample_calls |}
  | _ => Return {| msg_content := Some (py "I have passed your question to the team.");
                   msg_tool_calls := None |}
  end.

Definition tool_world : world :=
  fresh_world (sample_setting (Some sample_key) tool_provider) [].

Definition sample_first : request :=
  {| req_model := py "gpt-4o-mini";
     req_messages := [ChatMessage (py "system") (PStr (SYSTEM_PROMPT (outside tool_world)));
                      ChatMessage (py "user") (PStr (py "Do you accept Bitcoin?"))];
     req_tools := Some TOOL_SPEC |}.

Definition tagged_dict (r c : string) : pyval :=
  PDict [(py "role", PStr (py r)); (py "content", PStr (py c))].

(** Two failures of the file system. *)
Definition disk_full : exn :=
  {| exn_name := py "OSError"; exn_is_TypeError := false;
     exn_text := py "[Errno 28] No space left on device" |}.

Definition read_only : exn :=
  {| exn_name := py "PermissionError"; exn_is_TypeError := false;
     exn_text := py "[Errno 13] Permission denied" |}.

(** The disk fills up while a line is flushed: part of it is in the file. *)
Definition full_at_flush : failure := {| raised := disk_full; reached := Part |}.

(** A world whose CSV file has its header already, and whose second file
    operation fails half way. *)
Definition started_world : world :=
  set_files (set_faults sample_world [None; Some full_at_flush])
    (file_put (files sample_world) (LEADS_CSV sample_world) [header_row]).

(** A world whose first file operation fails. *)
Definition locked_world : world := set_faults sample_world [refused read_only].

(** A world in which no file can be written. *)
Definition sealed_world : world :=
  set_faults sample_world [refused read_only; refused disk_full].

(** A question with a character that ASCII does not have. *)
Definition euro_question : str := py "Prix en " ++ [8364%N] ++ py "?".

Definition encode_error : exn :=
  {| exn_name := py "UnicodeEncodeError"; exn_is_TypeError := false;
     exn_text := py "'ascii' codec can't encode character '\u20ac' in position 47: ordinal not in range(128)" |}.

(** A world whose standard output is ASCII and refuses the first text. *)
Definition ascii_world : world := set_stdout sample_world [Some encode_error].

Definition arrow_error : exn :=
  {| exn_name := py "UnicodeEncodeError"; exn_is_TypeError := false;
     exn_text := py "'charmap' codec can't encode character '\u2192' in position 9: character maps to <undefined>" |}.

(** A world whose standard output cannot encode the arrow of the lines
    that [record_feedback] prints after its writes. *)
Definition legacy_world : world :=
  set_stdout sample_world [None; Some arrow_error; Some arrow_error].

Definition no_cwd : exn :=
  {| exn_name := py "FileNotFoundError"; exn_is_TypeError := false;
     exn_text := py "[Errno 2] No such file or directory" |}.

(** A world whose working directory has been removed, and whose first file
    operation fails. *)
Definition adrift_world : world :=
  {| outside := {| environ := environ (outside sample_world);
                   BASE_DIR := py "/app";
                   cwd := Raise no_cwd;
                   SYSTEM_PROMPT := SYSTEM_PROMPT (outside sample_world);
                   clock := sample_clock;
                   client_failure := None;
                   provider := provider (outside sample_world) |};
     ticks := 0; files := fun _ => None; stdout := [];
     faults := [refused read_only]; trace := [] |}.

Definition connection_error : exn :=
  {| exn_name := py "APIConnectionError"; exn_is_TypeError := false;
     exn_text := py "Connection error." |}.

(** A world whose provider cannot be reached. *)
Definition offline_world : world :=
  fresh_world (sample_setting (Some sample_key) (fun _ => Raise connection_error)) [].

(** A question with a key the tool does not declare. *)
Definition urgent_question : list (str * pyval) :=
  [(py "question", PStr (py "Do you accept Bitcoin?")); (py "urgent", PBool true)].

Definition feedback_decl : tool_decl :=
  {| tool_name := py "record_feedback"; tool_required := [py "question"] |}.

(** A call whose arguments are no JSON. *)
Definition call_4 : tool_call :=
  {| tc_id := py "call_4"; fn_name := py "record_feedback";
     fn_arguments := Some (py "question=hours") |}.

Definition summary_path : str := py "me/business_summary.txt".
Definition about_path : str := py "me/about_business.pdf".

(** A summary in a text file, and no PDF reader. *)
Definition text_only : documents :=
  {| text_files := fun p => if str_eqb p summary_path
                            then Some (Return (py "CedarCare Wellness Clinics" ++ [LF]))
                            else None;
     pdf_reader := false;
     pdf_files := fun _ => None |}.

Definition damaged_page : exn :=
  {| exn_name := py "PdfReadError"; exn_is_TypeError := false;
     exn_text := py "Invalid Elementary Object" |}.

(** The same summary, and a PDF whose second page cannot be read. *)
Definition damaged_pdf : documents :=
  {| text_files := text_files text_only;
     pdf_reader := true;
     pdf_files := fun p => if str_eqb p about_path
                           then Some (Return [Return (Some (py "About us"));
                                              Raise damaged_page;
                                              Return None])
                           else None |}.

(** * Properties *)

(** ** Strings *)

Lemma str_eqb_eq (a b : str) : str_eqb a b = true <-> a = b.
Proof.
  revert b; induction a as [|x a IH]; intros [|y b]; simpl; split; intro E;
    try reflexivity; try discriminate.
  - apply andb_prop in E as [E1 E2]. apply N.eqb_eq in E1. apply IH in E2.
    now subst.
  - injection E as -> ->. rewrite N.eqb_refl. now apply IH.
Qed.

Lemma str_eqb_refl (a : str) : str_eqb a a = true.
Proof. now apply str_eqb_eq. Qed.

Lemma str_eqb_neq (a b : str) : str_eqb a b = false <-> a <> b.
Proof.
  split.
  - intros E ->. rewrite str_eqb_refl in E. discriminate.
  - intro N. destruct (str_eqb a b) eqn:E; [|reflexivity].
    apply str_eqb_eq in E. contradiction.
Qed.

Lemma lstrip_no_lead (s : str) : no_lead (lstrip s).
Proof.
  induction s as [|c s IH]; simpl; [exact I|].
  destruct (isspace c) eqn:E; [exact IH|exact E].
Qed.

Lemma lstrip_id (s : str) : no_lead s -> lstrip s = s.
Proof. destruct s as [|c s]; simpl; [reflexivity|]. now intros ->. Qed.

Lemma lstrip_app (l r : str) (c : char) :
  isspace c = false -> lstrip (l ++ c :: r) = lstrip l ++ c :: r.
Proof.
  intro E. induction l as [|x l IH]; simpl.
  - now rewrite E.
  - destruct (isspace x); [exact IH|reflexivity].
Qed.

Lemma rstrip_no_lead (s : str) : no_lead s -> no_lead (rstrip s).
Proof.
  unfold rstrip. destruct s as [|c s]; simpl; [intros _; exact I|].
  intro E. rewrite (lstrip_app (rev s) [] c E), rev_app_distr. exact E.
Qed.

Lemma strip_trimmed (s : str) : trimmed (strip s).
Proof.
  split.
  - apply rstrip_no_lead, lstrip_no_lead.
  - unfold strip, rstrip. rewrite rev_involutive. apply lstrip_no_lead.
Qed.

Lemma strip_id (s : str) : trimmed s -> strip s = s.
Proof.
  intros [L R]. unfold strip, rstrip.
  now rewrite (lstrip_id _ L), (lstrip_id _ R), rev_involutive.
Qed.

Lemma lstrip_spaces (s : str) : forallb isspace s = true -> lstrip s = [].
Proof.
  induction s as [|c s IH]; simpl; [reflexivity|].
  intro E. apply andb_prop in E as [-> E]. now apply IH.
Qed.

Lemma strip_spaces (s : str) : forallb isspace s = true -> strip s = [].
Proof. intro E. unfold strip. now rewrite (lstrip_spaces _ E). Qed.

(** [strip] keeps a stretch of the string: what it removes is whitespace at
    the two ends. *)
Lemma lstrip_split (s : str) :
  exists pre, s = pre ++ lstrip s /\ forallb isspace pre = true.
Proof.
  induction s as [|c s (pre & E & F)]; simpl.
  - now exists [].
  - destruct (isspace c) eqn:Ec.
    + exists (c :: pre). simpl. rewrite Ec, F. split; [now f_equal|reflexivity].
    + now exists [].
Qed.

Lemma strip_split (s : str) :
  exists pre post,
    s = pre ++ strip s ++ post
    /\ forallb isspace pre = true /\ forallb isspace post = true.
Proof.
  destruct (lstrip_split s) as (pre & E1 & F1).
  destruct (lstrip_split (rev (lstrip s))) as (post & E2 & F2).
  exists pre, (rev post). unfold strip, rstrip. repeat split; [|exact F1|].
  - rewrite <- rev_app_distr, <- E2, rev_involutive. exact E1.
  - rewrite forallb_forall in *. intros x Hx. apply F2. now apply in_rev.
Qed.

(** [replace] of a whitespace character by another character. *)
Lemma replace_length (old new : char) (s : str) :
  length (replace old new s) = length s.
Proof. apply length_map. Qed.

Lemma replace_rev (old new : char) (s : str) :
  replace old new (rev s) = rev (replace old new s).
Proof. unfold replace. now rewrite map_rev. Qed.

Lemma replace_no_lead (old new : char) (s : str) :
  isspace old = true -> no_lead s -> no_lead (replace old new s).
Proof.
  intros Eo. destruct s as [|c s]; simpl; [trivial|]. intro Ec.
  destruct (N.eqb_spec c old) as [->|_]; [congruence|exact Ec].
Qed.

Lemma replace_trimmed (old new : char) (s : str) :
  isspace old = true -> trimmed s -> trimmed (replace old new s).
Proof.
  intros Eo [L R]. split; [now apply replace_no_lead|].
  rewrite <- replace_rev. now apply replace_no_lead.
Qed.

Lemma replace_absent (old new : char) (s : str) :
  ~ In old s -> replace old new s = s.
Proof.
  induction s as [|c s IH]; simpl; [reflexivity|]. intro N.
  destruct (N.eqb_spec c old) as [->|_]; [exfalso; apply N; now left|].
  f_equal. apply IH. intro; apply N; now right.
Qed.

Lemma replace_removes (old new : char) (s : str) :
  new <> old -> ~ In old (replace old new s).
Proof.
  intros D. induction s as [|c s IH]; simpl; [tauto|].
  intros [E|E]; [|now apply IH].
  destruct (N.eqb_spec c old); congruence.
Qed.

Lemma replace_keeps_absent (old new x : char) (s : str) :
  new <> x -> ~ In x s -> ~ In x (replace old new s).
Proof.
  intros D. induction s as [|c s IH]; simpl; [tauto|].
  intros N [E|E]; [|apply IH; tauto].
  destruct (N.eqb c old); [congruence|tauto].
Qed.

Lemma collapse_length (s : str) : length (collapse s) = length s.
Proof. unfold collapse. now rewrite !replace_length. Qed.

Lemma collapse_trimmed (s : str) : trimmed s -> trimmed (collapse s).
Proof. intro T. unfold collapse. now repeat apply replace_trimmed. Qed.

Lemma collapse_no_newline (s : str) :
  ~ In CR (collapse s) /\ ~ In LF (collapse s).
Proof.
  unfold collapse. split.
  - apply replace_keeps_absent; [discriminate|].
    apply replace_removes. discriminate.
  - apply replace_removes. discriminate.
Qed.

Lemma collapse_id (s : str) : ~ In CR s -> ~ In LF s -> collapse s = s.
Proof.
  intros C L. unfold collapse. rewrite (replace_absent _ _ _ C).
  now apply replace_absent.
Qed.

Lemma in_firstn {A : Type} (k : nat) (x : A) (l : list A) :
  In x (firstn k l) -> In x l.
Proof.
  intro I. rewrite <- (firstn_skipn k l). apply in_or_app. now left.
Qed.

Lemma truncate_short (n : Z) (s : str) :
  (Z.of_nat (length s) <= n)%Z -> truncate n s = s.
Proof.
  intro L. unfold truncate. destruct (Z.ltb_spec n (Z.of_nat (length s))); [lia|reflexivity].
Qed.

Lemma truncate_long (n : Z) (s : str) :
  (1 <= n < Z.of_nat (length s))%Z ->
  truncate n s = firstn (Z.to_nat (n - 1)) s ++ [ELLIPSIS]
  /\ Z.of_nat (length (truncate n s)) = n.
Proof.
  intro L. unfold truncate, slice_to.
  destruct (Z.ltb_spec n (Z.of_nat (length s))); [|lia].
  destruct (Z.leb_spec 0 (n - 1)); [|lia].
  split; [reflexivity|]. rewrite length_app, length_firstn. simpl. lia.
Qed.

Lemma truncate_trimmed (n : Z) (s : str) :
  (1 <= n)%Z -> trimmed s -> trimmed (truncate n s).
Proof.
  intros Hn [L R].
  destruct (Z.ltb_spec n (Z.of_nat (length s))) as [Hl|Hl].
  - destruct (truncate_long n s (conj Hn Hl)) as [-> _]. split.
    + destruct s as [|c s]; [now destruct (Z.to_nat (n - 1))|].
      destruct (Z.to_nat (n - 1)); simpl; [reflexivity|exact L].
    + rewrite rev_app_distr. reflexivity.
  - rewrite truncate_short by lia. now split.
Qed.

Lemma truncate_no_char (n : Z) (s : str) (x : char) :
  (1 <= n)%Z -> x <> ELLIPSIS -> ~ In x s -> ~ In x (truncate n s).
Proof.
  intros Hn D N.
  destruct (Z.ltb_spec n (Z.of_nat (length s))) as [Hl|Hl].
  - destruct (truncate_long n s (conj Hn Hl)) as [-> _].
    intro I. apply in_app_or in I as [I|[I|[]]]; [|congruence].
    apply N. revert I. apply in_firstn.
  - now rewrite truncate_short by lia.
Qed.

Lemma truncate_length (n : Z) (s : str) :
  (1 <= n)%Z -> (Z.of_nat (length (truncate n s)) <= n)%Z.
Proof.
  intro Hn. destruct (Z.ltb_spec n (Z.of_nat (length s))) as [Hl|Hl].
  - destruct (truncate_long n s (conj Hn Hl)) as [_ E]. lia.
  - rewrite truncate_short; lia.
Qed.

Section SanitizerFacts.
Context `{Interp}.

(** On a string, [_clean] strips, collapses the line breaks and truncates. *)
Lemma clean_str (s : str) (n : Z) :
  _clean (PStr s) n = Return (truncate n (collapse (strip s))).
Proof. unfold _clean, py_or. destruct s; reflexivity. Qed.

(** A value that [_clean] has produced is one that [_clean] leaves alone. *)
Lemma clean_fixpoint (s : str) (n : Z) :
  (1 <= n)%Z ->
  let t := truncate n (collapse (strip s)) in
  truncate n (collapse (strip t)) = t.
Proof.
  intros Hn t.
  assert (T : trimmed t)
    by (apply truncate_trimmed; [exact Hn|apply collapse_trimmed, strip_trimmed]).
  destruct (collapse_no_newline (strip s)) as [C L].
  rewrite (strip_id _ T).
  rewrite collapse_id; try (apply truncate_no_char; trivial; discriminate).
  apply truncate_short, truncate_length, Hn.
Qed.

(** C10. The sanitizer is idempotent at the default cap of 800: for every
    string [s], [_clean(s)] returns a string [t], and [_clean(t)] returns
    [t] again. *)
Theorem clean_idempotent (s : str) :
  exists t, _clean (PStr s) 800 = Return t /\ _clean (PStr t) 800 = Return t.
Proof.
  exists (truncate 800 (collapse (strip s))). split; [apply clean_str|].
  rewrite clean_str. f_equal. apply (clean_fixpoint s 800). lia.
Qed.

End SanitizerFacts.

(** ** Regular expressions: the matcher decides the words *)

Lemma matches_nil_nullable (r : regex) (s : str) :
  matches r s -> s = [] -> nullable r = true.
Proof.
  induction 1; intro E; simpl; try reflexivity; try discriminate.
  - apply app_eq_nil in E as [E1 E2]. now rewrite IHmatches1, IHmatches2.
  - now rewrite IHmatches.
  - rewrite IHmatches by assumption. apply orb_true_r.
Qed.

Lemma nullable_matches (r : regex) : nullable r = true <-> matches r [].
Proof.
  split; [|intro M; now apply (matches_nil_nullable r [] M)].
  induction r; simpl; intro E; try discriminate.
  - constructor.
  - apply andb_prop in E as [E1 E2]. apply (m_cat _ _ [] []); auto.
  - apply orb_prop in E as [E|E]; [apply m_alt_l|apply m_alt_r]; auto.
  - constructor.
Qed.

Lemma matches_cat_inv (r1 r2 : regex) (s : str) :
  matches (Cat r1 r2) s ->
  exists s1 s2, s = s1 ++ s2 /\ matches r1 s1 /\ matches r2 s2.
Proof. inversion 1; subst. eauto. Qed.

Lemma matches_alt_inv (r1 r2 : regex) (s : str) :
  matches (Alt r1 r2) s -> matches r1 s \/ matches r2 s.
Proof. inversion 1; subst; auto. Qed.

Lemma matches_chr_inv (c : char) (s : str) : matches (Chr c) s -> s = [c].
Proof. inversion 1; subst; reflexivity. Qed.

Lemma matches_none_inv (cs : list char) (sp : bool) (s : str) :
  matches (NoneOf cs sp) s -> exists c, s = [c] /\ in_class cs sp c = true.
Proof. inversion 1; subst; eauto. Qed.

Lemma matches_star_cons (r : regex) (c : char) (s : str) :
  matches (Star r) (c :: s) ->
  exists s1 s2, s = s1 ++ s2 /\ matches r (c :: s1) /\ matches (Star r) s2.
Proof.
  intro M. remember (Star r) as q eqn:Eq. remember (c :: s) as cs eqn:Es.
  revert s Es. induction M; intros s' Es; try discriminate.
  injection Eq as ->. destruct s1 as [|x s1].
  - simpl in Es. now apply IHM2.
  - injection Es as -> <-. now exists s1, s2.
Qed.

Lemma matches_deriv (c : char) (r : regex) (s : str) :
  matches (deriv c r) s <-> matches r (c :: s).
Proof.
  revert s. induction r; intro s; simpl.
  - split; intro M; inversion M.
  - split; intro M; inversion M.
  - destruct (N.eqb_spec c c0) as [->|D]; split; intro M.
    + inversion M; subst. constructor.
    + apply matches_chr_inv in M. injection M as ->. constructor.
    + inversion M.
    + apply matches_chr_inv in M. congruence.
  - destruct (in_class cs spaces c) eqn:E; split; intro M.
    + inversion M; subst. now constructor.
    + apply matches_none_inv in M as (x & [= <- ->] & _). constructor.
    + inversion M.
    + apply matches_none_inv in M as (x & [= <- _] & E'). congruence.
  - assert (L : forall t, matches (Cat (deriv c r1) r2) t -> matches (Cat r1 r2) (c :: t)).
    { intros t M. apply matches_cat_inv in M as (s1 & s2 & -> & M1 & M2).
      apply IHr1 in M1. apply (m_cat _ _ (c :: s1) s2); assumption. }
    assert (R : matches (Cat r1 r2) (c :: s) ->
                matches (Cat (deriv c r1) r2) s
                \/ (nullable r1 = true /\ matches (deriv c r2) s)).
    { intro M. apply matches_cat_inv in M as (s1 & s2 & E & M1 & M2).
      destruct s1 as [|x s1]; simpl in E.
      - right. subst s2. split; [now apply nullable_matches|now apply IHr2].
      - injection E as <- ->. left. apply m_cat; [now apply IHr1|assumption]. }
    destruct (nullable r1) eqn:N; split; intro M.
    + apply matches_alt_inv in M as [M|M]; [now apply L|].
      apply (m_cat _ _ [] (c :: s)); [now apply nullable_matches|now apply IHr2].
    + destruct (R M) as [M'|[_ M']]; [now apply m_alt_l|now apply m_alt_r].
    + now apply L.
    + destruct (R M) as [M'|[N' _]]; [assumption|discriminate].
  - split; intro M.
    + apply matches_alt_inv in M as [M|M];
        [apply m_alt_l; now apply IHr1|apply m_alt_r; now apply IHr2].
    + apply matches_alt_inv in M as [M|M];
        [apply m_alt_l; now apply IHr1|apply m_alt_r; now apply IHr2].
  - split; intro M.
    + apply matches_cat_inv in M as (s1 & s2 & -> & M1 & M2). apply IHr in M1.
      apply (m_star_app _ (c :: s1) s2); assumption.
    + apply matches_star_cons in M as (s1 & s2 & -> & M1 & M2).
      apply m_cat; [now apply IHr|assumption].
Qed.

Lemma fullmatch_matches (r : regex) (s : str) :
  fullmatch r s = true <-> matches r s.
Proof.
  revert r. induction s as [|c s IH]; intro r; simpl.
  - apply nullable_matches.
  - rewrite IH. apply matches_deriv.
Qed.

Lemma email_atom_class (c : char) : in_class [AT] true c = true <-> atom c.
Proof.
  unfold in_class, atom. simpl. rewrite orb_false_r.
  destruct (N.eqb_spec c AT), (isspace c); simpl; intuition congruence.
Qed.

Lemma star_atoms (s : str) : matches (Star email_atom) s -> Forall atom s.
Proof.
  intro M. remember (Star email_atom) as q eqn:Eq.
  induction M; try discriminate; [constructor|].
  injection Eq as ->. apply matches_none_inv in M1 as (c & -> & E).
  simpl. constructor.
  - now apply email_atom_class.
  - now apply IHM2.
Qed.

Lemma plus_atoms (s : str) :
  matches (Plus email_atom) s -> s <> [] /\ Forall atom s.
Proof.
  intro M. apply matches_cat_inv in M as (s1 & s2 & -> & M1 & M2).
  apply matches_none_inv in M1 as (c & -> & E).
  simpl. split; [discriminate|]. constructor.
  - now apply email_atom_class.
  - now apply star_atoms.
Qed.

(** What [EMAIL_RE] accepts: a local part, an at sign, and a domain with a
    dot inside it, all without whitespace or a further at sign. *)
Lemma EMAIL_RE_shape (s : str) :
  fullmatch EMAIL_RE s = true ->
  exists l d t,
    s = l ++ AT :: d ++ DOT :: t
    /\ l <> [] /\ d <> [] /\ t <> []
    /\ Forall atom l /\ Forall atom d /\ Forall atom t.
Proof.
  intro F. apply fullmatch_matches in F. unfold EMAIL_RE in F.
  apply matches_cat_inv in F as (l & s2 & -> & Ml & M2).
  apply matches_cat_inv in M2 as (a & s3 & -> & Ma & M3).
  apply matches_cat_inv in M3 as (d & s4 & -> & Md & M4).
  apply matches_cat_inv in M4 as (o & t & -> & Mo & Mt).
  apply matches_chr_inv in Ma as ->. apply matches_chr_inv in Mo as ->.
  apply plus_atoms in Ml as [? ?], Md as [? ?], Mt as [? ?].
  exists l, d, t. simpl. repeat split; assumption.
Qed.

(** ** What lowercasing, cleaning and matching do to an email *)

Lemma lower_skeleton `{Interp} (s : str) : skeleton (str_lower s) = skeleton s.
Proof.
  destruct (str_lower_chunks s) as (chunks & -> & F). unfold skeleton.
  induction F as [|c chunk s chunks R F IH]; simpl; [reflexivity|].
  rewrite filter_app, IH. unfold lower_rel in R.
  destruct (inert c) eqn:E.
  - subst chunk. simpl. now rewrite E.
  - replace (filter inert chunk) with (@nil char); [reflexivity|].
    symmetry. induction R as [|d chunk D R IHR]; simpl; [reflexivity|].
    now rewrite D.
Qed.

Lemma skeleton_in (c : char) (s : str) :
  inert c = true -> (In c (skeleton s) <-> In c s).
Proof. intro E. unfold skeleton. rewrite filter_In. tauto. Qed.

Lemma isspace_inert (c : char) : isspace c = true -> inert c = true.
Proof. unfold inert. now intros ->. Qed.

Lemma skeleton_has_space (s : str) : has_space (skeleton s) = has_space s.
Proof.
  unfold has_space, skeleton. induction s as [|c s IH]; simpl; [reflexivity|].
  destruct (inert c) eqn:E; simpl; rewrite IH; [reflexivity|].
  destruct (isspace c) eqn:Ec; [|reflexivity].
  apply isspace_inert in Ec. congruence.
Qed.

Lemma skeleton_after_at (s : str) : after_at (skeleton s) = skeleton (after_at s).
Proof.
  unfold skeleton. induction s as [|c s IH]; simpl; [reflexivity|].
  destruct (N.eqb_spec c AT) as [->|D].
  - reflexivity.
  - destruct (inert c); simpl; [|exact IH].
    destruct (N.eqb_spec c AT); [contradiction|exact IH].
Qed.

Lemma has_at_in (s : str) : has_at s = true <-> In AT s.
Proof.
  unfold has_at. rewrite existsb_exists. split.
  - intros (x & I & E). apply N.eqb_eq in E. now subst.
  - intro I. exists AT. now split.
Qed.

Lemma has_at_false (s : str) : ~ In AT s -> has_at s = false.
Proof. intro N. apply not_true_is_false. now rewrite has_at_in. Qed.

Lemma after_at_app (p q : str) :
  after_at (p ++ q) = if has_at p then after_at p ++ q else after_at q.
Proof.
  unfold has_at. induction p as [|c p IH]; cbn [app after_at existsb]; [reflexivity|].
  destruct (N.eqb c AT); simpl; [reflexivity|exact IH].
Qed.

Lemma after_at_no_at (s : str) : ~ In AT s -> after_at s = [].
Proof.
  induction s as [|c s IH]; simpl; [reflexivity|]. intro N.
  destruct (N.eqb_spec c AT) as [->|_]; [exfalso; apply N; now left|].
  apply IH. tauto.
Qed.

Lemma after_at_prefix (x : char) (p q : str) :
  In x (after_at p) -> In x (after_at (p ++ q)).
Proof.
  intro I. rewrite after_at_app. destruct (has_at p) eqn:E.
  - apply in_or_app. now left.
  - rewrite after_at_no_at in I; [destruct I|].
    intro A. apply has_at_in in A. congruence.
Qed.

Lemma spaces_no_at (p : str) : forallb isspace p = true -> ~ In AT p.
Proof.
  intros F A. rewrite forallb_forall in F. apply F in A. discriminate.
Qed.

Lemma after_at_collapse (s : str) : after_at (collapse s) = collapse (after_at s).
Proof.
  unfold collapse, replace. rewrite map_map.
  induction s as [|c s IH]; simpl; [reflexivity|].
  destruct (N.eqb_spec c AT) as [->|D]; [now rewrite map_map|].
  destruct (N.eqb c CR); simpl; [exact IH|].
  destruct (N.eqb c LF); simpl; [exact IH|].
  destruct (N.eqb_spec c AT); [contradiction|exact IH].
Qed.

Lemma collapse_in (x : char) (s : str) :
  isspace x = false -> In x (collapse s) -> In x s.
Proof.
  intros E. unfold collapse, replace. rewrite map_map, in_map_iff.
  intros (c & Ec & I).
  destruct (N.eqb c CR); [simpl in Ec; subst x; discriminate|].
  destruct (N.eqb c LF); [subst x; discriminate|]. now subst.
Qed.

Lemma collapse_has_space (s : str) : has_space (collapse s) = has_space s.
Proof.
  unfold has_space, collapse, replace. rewrite map_map.
  induction s as [|c s IH]; simpl; [reflexivity|]. rewrite IH. f_equal.
  destruct (N.eqb_spec c CR) as [->|_]; [reflexivity|].
  destruct (N.eqb_spec c LF) as [->|_]; reflexivity.
Qed.

Lemma collapse_firstn (k : nat) (s : str) :
  firstn k (collapse s) = collapse (firstn k s).
Proof. unfold collapse, replace. now rewrite !firstn_map. Qed.

Lemma has_space_app (p q : str) : has_space (p ++ q) = has_space p || has_space q.
Proof. apply existsb_app. Qed.

Lemma atoms_no_space (s : str) : Forall atom s -> has_space s = false.
Proof.
  induction 1 as [|c s [_ E] F IH]; simpl; [reflexivity|]. now rewrite E.
Qed.

Lemma atoms_no_at (s : str) : Forall atom s -> ~ In AT s.
Proof.
  intros F A. rewrite Forall_forall in F. apply F in A as [A _]. now apply A.
Qed.

(** An accepted address has an at sign, a dot in its domain part and no
    whitespace. *)
Lemma EMAIL_RE_needs (s : str) :
  fullmatch EMAIL_RE s = true ->
  In DOT (after_at s) /\ has_space s = false.
Proof.
  intro F. apply EMAIL_RE_shape in F as (l & d & t & -> & _ & _ & _ & Al & Ad & At).
  split.
  - rewrite after_at_app, (has_at_false l (atoms_no_at l Al)).
    simpl. apply in_or_app. right. now left.
  - rewrite has_space_app. simpl. rewrite has_space_app. simpl.
    now rewrite !atoms_no_space.
Qed.

Lemma re_match_cases (r : regex) (s : str) :
  re_match r s = true -> fullmatch r s = true \/ In LF s.
Proof.
  unfold re_match. intro E. apply orb_prop in E as [E|E]; [now left|right].
  destruct (rev s) as [|c before] eqn:R; [discriminate|].
  apply andb_prop in E as [E _]. apply N.eqb_eq in E. subst c.
  apply in_rev. rewrite R. now left.
Qed.

Section EmailFacts.
Context `{Interp}.

Lemma lower_in (c : char) (s : str) :
  inert c = true -> In c (str_lower s) -> In c s.
Proof.
  intros E I. apply (proj2 (skeleton_in c _ E)) in I.
  rewrite lower_skeleton in I. exact (proj1 (skeleton_in c _ E) I).
Qed.

Lemma lower_domain_dot (s : str) :
  In DOT (after_at (str_lower s)) -> In DOT (after_at s).
Proof.
  intro I. apply (proj2 (skeleton_in DOT _ eq_refl)) in I.
  rewrite <- skeleton_after_at, lower_skeleton, skeleton_after_at in I.
  exact (proj1 (skeleton_in DOT _ eq_refl) I).
Qed.

Lemma lower_has_space (s : str) : has_space (str_lower s) = has_space s.
Proof. now rewrite <- skeleton_has_space, lower_skeleton, skeleton_has_space. Qed.

Lemma normalized_email_fullmatch (email : str) :
  re_match EMAIL_RE (normalized_email email) = true ->
  fullmatch EMAIL_RE (normalized_email email) = true.
Proof.
  intro E. apply re_match_cases in E as [E|L]; [exact E|exfalso].
  unfold normalized_email in L.
  apply (lower_in LF _ eq_refl) in L. revert L.
  apply truncate_no_char; [lia|discriminate|apply collapse_no_newline].
Qed.

(** An email that [record_customer_interest] accepts has a dot in its
    domain part (so it has an at sign), and no whitespace among the
    characters that the truncation keeps. *)
Lemma accepted_email (email : str) :
  re_match EMAIL_RE (normalized_email email) = true ->
  In AT email /\ In DOT (after_at email) /\ ~ surviving_space email.
Proof.
  intro E. apply normalized_email_fullmatch in E.
  apply EMAIL_RE_needs in E as [D S]. unfold normalized_email in *.
  assert (Dom : In DOT (after_at email)).
  { apply lower_domain_dot in D.
    destruct (strip_split email) as (pre & post & Es & Fpre & _).
    rewrite Es at 1.
    rewrite after_at_app, (has_at_false pre (spaces_no_at pre Fpre)).
    apply after_at_prefix. apply (collapse_in DOT _ eq_refl).
    rewrite <- after_at_collapse.
    set (t := collapse (strip email)) in *.
    destruct (Z.ltb_spec 200 (Z.of_nat (length t))) as [Hl|Hl].
    - destruct (truncate_long 200 t) as [Et _]; [lia|]. rewrite Et in D.
      rewrite <- (firstn_skipn (Z.to_nat (200 - 1)) t).
      rewrite after_at_app in *.
      destruct (has_at (firstn (Z.to_nat (200 - 1)) t)).
      + apply in_app_or in D as [D|[D|[]]]; [|discriminate].
        apply in_or_app. now left.
      + destruct D.
    - now rewrite truncate_short in D by lia. }
  split; [|split; [exact Dom|]].
  - destruct (in_dec N.eq_dec AT email) as [A|A]; [exact A|].
    rewrite (after_at_no_at email A) in Dom. destruct Dom.
  - unfold surviving_space. cbv zeta. intro Sv.
    rewrite lower_has_space in S.
    set (t := strip email) in *.
    unfold truncate in S. rewrite collapse_length in S.
    destruct (Nat.ltb_spec 200 (length t)) as [Hl|Hl].
    + destruct (Z.ltb_spec 200 (Z.of_nat (length t))); [|lia].
      unfold slice_to in S. change (0 <=? 200 - 1)%Z with true in S. cbv iota in S.
      change (Z.to_nat (200 - 1)) with 199%nat in S.
      rewrite has_space_app, collapse_firstn, collapse_has_space, Sv in S.
      discriminate.
    + destruct (Z.ltb_spec 200 (Z.of_nat (length t))); [lia|].
      rewrite collapse_has_space in S. congruence.
Qed.

End EmailFacts.

(** ** Lead capture *)

Lemma path_join_inj (a : str) (x y : string) :
  path_join a x = path_join a y -> py x = py y.
Proof.
  unfold path_join. intro E. apply app_inv_head in E. now apply app_inv_head in E.
Qed.

Lemma leads_paths_differ (w : world) : str_eqb (LEADS_CSV w) (LEADS_JSONL w) = false.
Proof.
  apply str_eqb_neq. intro E. apply path_join_inj in E. discriminate.
Qed.

Section LeadFacts.
Context `{Interp}.

Lemma clean_message (message : str) :
  _clean (py_or (PStr message) (PStr (py "General inquiry"))) 800
  = Return (truncate 800 (collapse (strip (default_message message)))).
Proof. destruct message; apply clean_str. Qed.

(** The two validations of [record_customer_interest], on strings. *)
Lemma lead_validation (email name message : str) (w : world) :
  (re_match EMAIL_RE (normalized_email email) = false ->
   record_customer_interest (PStr email) (PStr name) (PStr message) w
   = (Return (py "Invalid email address."), w))
  /\ (re_match EMAIL_RE (normalized_email email) = true ->
      truncate 200 (collapse (strip name)) = [] ->
      record_customer_interest (PStr email) (PStr name) (PStr message) w
      = (Return (py "Please provide a name."), w)).
Proof.
  unfold record_customer_interest, bind, lift.
  rewrite !clean_str, clean_message. fold (normalized_email email).
  split.
  - now intros ->.
  - now intros -> ->.
Qed.

(** C2 (amended). An email with no at sign, or with no dot in its domain
    part (what follows the first at sign), or with whitespace inside that
    the truncation to 200 characters keeps, is answered with
    "Invalid email address." and the world is left as it was: no row, no
    line, no print. *)
Theorem malformed_email_rejected (email name message : str) (w : world) :
  ~ In AT email \/ ~ In DOT (after_at email) \/ surviving_space email ->
  record_customer_interest (PStr email) (PStr name) (PStr message) w
  = (Return (py "Invalid email address."), w).
Proof.
  intro Bad. apply lead_validation.
  destruct (re_match EMAIL_RE (normalized_email email)) eqn:E; [exfalso|reflexivity].
  apply accepted_email in E as (A & D & S). tauto.
Qed.

(** C8 (amended). With a name that is empty or all whitespace, nothing is
    written and the answer is "Please provide a name." when the email is
    accepted, and "Invalid email address." when it is not: the email is
    validated first. *)
Theorem blank_name_rejected (email name message : str) (w : world) :
  forallb isspace name = true ->
  record_customer_interest (PStr email) (PStr name) (PStr message) w
  = (Return (if re_match EMAIL_RE (normalized_email email)
             then py "Please provide a name."
             else py "Invalid email address."), w).
Proof.
  intro Blank. destruct (re_match EMAIL_RE (normalized_email email)) eqn:E.
  - apply lead_validation; [exact E|]. now rewrite (strip_spaces name Blank).
  - now apply lead_validation.
Qed.

End LeadFacts.

Arguments py : simpl never.

(** A file operation either raises, or adds its line to the file. *)
Lemma write_line_cases (mode : open_mode) (path : str) (data : line) (w : world) :
  (exists x, write_line mode path data w
             = (Raise (raised x),
                log (set_files (set_faults w (tl (faults w)))
                       (file_left (files w) path (reached x) mode data))
                    (EvFile mode path data (Some (raised x)))))
  \/ write_line mode path data w
     = (Return tt,
        log (set_files (set_faults w (tl (faults w)))
               (file_put (files w) path (opened mode (files w path) ++ [data])))
            (EvFile mode path data None)).
Proof.
  unfold write_line. destruct (faults w) as [|[x|] rest]; simpl; eauto.
Qed.

(** A call of [print] either raises, or prints its text. *)
Lemma print_cases (text : str) (w : world) :
  (exists e, print text w
             = (Raise e, log (set_stdout w (tl (stdout w))) (EvPrint text (Some e))))
  \/ print text w = (Return tt, printed text w).
Proof.
  unfold print, printed. destruct (stdout w) as [|[e|] rest]; simpl; eauto.
Qed.

Ltac split_write H :=
  match type of H with
  | context [write_line ?m ?p ?d ?u] =>
      let x := fresh "x" in
      let E := fresh "E" in
      destruct (write_line_cases m p d u) as [(x & E)|E]; rewrite E in H
  end.


Section StoredLead.
Context `{Interp}.

(** When [record_customer_interest] answers "Lead saved.", the last row of
    the CSV file and the last line of the JSONL file carry the cleaned
    message. *)
Lemma lead_saved (email name : pyval) (message : str) (w w' : world) :
  record_customer_interest email name (PStr message) w
  = (Return (py "Lead saved."), w') ->
  exists ts e n rows lines,
    let stored := truncate 800 (collapse (strip (default_message message))) in
    files w' (LEADS_CSV w) = Some (rows ++ [CsvRow [ts; e; n; stored]])
    /\ files w' (LEADS_JSONL w)
       = Some (lines ++ [JsonLine [(py "timestamp", ts); (py "email", e);
                                   (py "name", n); (py "message", stored)]]).
Proof.
  unfold record_customer_interest.
  unfold bind at 1 2 3. unfold lift.
  destruct (_clean email 200) as [e|]; [|discriminate].
  destruct (_clean name 200) as [n|]; [|discriminate].
  rewrite clean_message.
  destruct (re_match EMAIL_RE (str_lower e)); cbn [negb];
    [|intros [= E _]; vm_compute in E; discriminate].
  destruct n as [|c n]; cbn [negb truthy];
    [intros [= E _]; vm_compute in E; discriminate|].
  set (n' := c :: n). set (stored := truncate _ _).
  unfold bind at 1. unfold _utc_iso. unfold bind at 1.
  match goal with |- context [print ?t ?u] =>
    destruct (print_cases t u) as [(x & ->)| ->] end; [discriminate|].
  set (w1 := printed _ _).
  unfold bind at 1. unfold asks. change (LEADS_CSV w1) with (LEADS_CSV w).
  unfold bind at 1. unfold path_exists. change (files w1) with (files w).
  set (ts := clock (outside w) (ticks w)).
  set (row := CsvRow [ts; str_lower e; n'; stored]).
  set (obj := [(py "timestamp", ts); (py "email", str_lower e);
               (py "name", n'); (py "message", stored)]).
  assert (Tail : forall v rows,
    outside v = outside w ->
    files v (LEADS_CSV w) = Some rows ->
    (write_line ModeA (LEADS_CSV w) row ;;;
     jsonl <- (fun w0 : world => (Return (LEADS_JSONL w0), w0)) ;;
     _append_jsonl jsonl obj ;;;
     ret (py "Lead saved.")) v = (Return (py "Lead saved."), w') ->
    exists lines,
      files w' (LEADS_CSV w) = Some (rows ++ [row])
      /\ files w' (LEADS_JSONL w) = Some (lines ++ [JsonLine obj])).
  { intros v rows Ov Fv Run. unfold bind at 1 in Run.
    split_write Run; [discriminate|]. rewrite Fv in Run.
    unfold bind at 1 in Run.
    match type of Run with context [LEADS_JSONL ?v1] =>
      change (LEADS_JSONL v1)
        with (path_join (path_join (BASE_DIR (outside v)) "logs") "leads.jsonl") in Run
    end.
    rewrite Ov in Run. fold (LOG_DIR w) in Run. fold (LEADS_JSONL w) in Run.
    unfold _append_jsonl, bind in Run.
    split_write Run; [discriminate|].
    unfold ret in Run. injection Run as <-. eexists.
    cbn [files log set_files set_faults]. unfold file_put.
    rewrite str_eqb_refl, leads_paths_differ, str_eqb_refl.
    split; reflexivity. }
  intro Run. exists ts, (str_lower e), n'.
  destruct (files w (LEADS_CSV w)) as [rows|] eqn:Ef; cbn [negb] in Run.
  - unfold bind at 1 in Run. unfold ret at 1 in Run.
    destruct (Tail w1 rows eq_refl Ef Run) as (lines & ? & ?). now exists rows, lines.
  - unfold bind at 1 in Run.
    split_write Run; [discriminate|].
    match type of Run with _ ?v = _ =>
      destruct (Tail v [CsvRow [py "timestamp"; py "email"; py "name"; py "message"]]
                  eq_refl) as (lines & ? & ?)
    end.
    + cbn [files log set_files set_faults]. unfold file_put.
      now rewrite str_eqb_refl.
    + exact Run.
    + eauto.
Qed.

(** C3 (amended). The message of a saved lead is the argument (or
    "General inquiry" when the argument is empty), stripped of leading and
    trailing whitespace, with every line break turned into a space, and
    then: when that text is longer than 800 characters, its first 799
    characters followed by the ellipsis, 800 characters in all; when it has
    at most 800 characters, that text itself.  It is what the last CSV row
    and the last JSONL line carry. *)
Theorem stored_message_length (email name : pyval) (message : str) (w w' : world) :
  record_customer_interest email name (PStr message) w
  = (Return (py "Lead saved."), w') ->
  exists stored ts e n rows lines,
    _clean (py_or (PStr message) (PStr (py "General inquiry"))) 800 = Return stored
    /\ files w' (LEADS_CSV w) = Some (rows ++ [CsvRow [ts; e; n; stored]])
    /\ files w' (LEADS_JSONL w)
       = Some (lines ++ [JsonLine [(py "timestamp", ts); (py "email", e);
                                   (py "name", n); (py "message", stored)]])
    /\ let t := collapse (strip (default_message message)) in
       ((800 < length t)%nat ->
        stored = firstn 799 t ++ [ELLIPSIS] /\ length stored = 800%nat)
       /\ ((length t <= 800)%nat -> stored = t).
Proof.
  intro Run. apply lead_saved in Run as (ts & e & n & rows & lines & Fc & Fj).
  exists (truncate 800 (collapse (strip (default_message message)))),
    ts, e, n, rows, lines.
  split; [apply clean_message|]. split; [exact Fc|]. split; [exact Fj|].
  cbv zeta. set (t := collapse (strip (default_message message))). split.
  - intro L. destruct (truncate_long 800 t) as [E1 E2]; [lia|]. split; [exact E1|lia].
  - intro L. apply truncate_short. lia.
Qed.

End StoredLead.

(** ** Dispatch *)

Section DispatchFacts.
Context `{Interp}.

(** A failed keyword check is a [TypeError]. *)
Lemma keywords_TypeError (fn : str) (params : list str) (args : pyval) (e : exn) :
  keywords fn params args = Raise e -> exn_is_TypeError e = true.
Proof.
  unfold keywords. destruct args; try (intros [= <-]; reflexivity).
  destruct (find _ entries) as [[k v]|]; [intros [= <-]; reflexivity|].
  destruct (filter _ params); [discriminate|intros [= <-]; reflexivity].
Qed.

(** [_dispatch_tool] returns. *)
Lemma dispatch_returns (name : str) (args : pyval) (w : world) :
  exists r w', _dispatch_tool name args w = (Return r, w').
Proof.
  unfold _dispatch_tool, try_except.
  match goal with |- context [match ?m w with _ => _ end] => destruct (m w) as [[r|e] w'] end.
  - eauto.
  - destruct (exn_is_TypeError e); unfold ret; eauto.
Qed.

(** C5. [_dispatch_tool] always returns a string.  For a name that is not
    one of the two tools the string is "Unknown tool: <name>" and nothing
    happens; when the arguments do not fit the handler's parameters it is
    "Tool '<name>' argument error: <error>" and nothing happens; when the
    handler raises it is "Tool '<name>' failed: <error>" (or the argument
    error text, for a [TypeError]); otherwise it is the handler's answer. *)
Theorem dispatch_tool_total (name : str) (args : pyval) (w : world) :
  exists r w',
    _dispatch_tool name args w = (Return r, w')
    /\ match handler_of name with
       | None => r = py "Unknown tool: " ++ name /\ w' = w
       | Some (params, body) =>
           match keywords name params (normalize_args args) with
           | Raise e =>
               r = py "Tool '" ++ name ++ py "' argument error: " ++ exn_text e
               /\ w' = w
           | Return kw =>
               match body kw w with
               | (Return s, w1) => r = s /\ w' = w1
               | (Raise e, w1) =>
                   r = py "Tool '" ++ name ++ py "' "
                       ++ (if exn_is_TypeError e
                           then py "argument error: " else py "failed: ")
                       ++ exn_text e
                   /\ w' = w1
               end
           end
       end.
Proof.
  unfold _dispatch_tool, handler_of, try_except.
  destruct (str_eqb name (py "record_customer_interest")).
  - unfold bind at 1. unfold lift.
    destruct (keywords name _ (normalize_args args)) as [kw|e] eqn:K.
    + match goal with |- context [record_customer_interest ?a ?b ?c w] =>
        destruct (record_customer_interest a b c w) as [[s|e] w1] end.
      * eauto.
      * destruct (exn_is_TypeError e); unfold ret; eexists _, _;
          (split; [reflexivity|]); rewrite <- ?app_assoc; auto.
    + rewrite (keywords_TypeError _ _ _ _ K). unfold ret. eauto.
  - destruct (str_eqb name (py "record_feedback")).
    + unfold bind at 1. unfold lift.
      destruct (keywords name _ (normalize_args args)) as [kw|e] eqn:K.
      * match goal with |- context [record_feedback ?a w] =>
          destruct (record_feedback a w) as [[s|e] w1] end.
        -- eauto.
        -- destruct (exn_is_TypeError e); unfold ret; eexists _, _;
             (split; [reflexivity|]); rewrite <- ?app_assoc; auto.
      * rewrite (keywords_TypeError _ _ _ _ K). unfold ret. eauto.
    + unfold ret. eauto.
Qed.

(** The part of C4 that holds: a mapping stays, a value that is neither
    text nor a mapping becomes the empty mapping, and so does text that is
    empty or does not parse; text that parses is replaced by its value. *)
Lemma normalize_args_cases (args : pyval) :
  match args with
  | PDict d => normalize_args args = PDict d
  | PStr [] => normalize_args args = PDict []
  | PStr s =>
      match json_loads s with
      | Raise _ => normalize_args args = PDict []
      | Return v => normalize_args args = v
      end
  | _ => normalize_args args = PDict []
  end.
Proof.
  destruct args as [| | | |[|c s]| | |]; try reflexivity.
  unfold normalize_args. simpl. destruct (json_loads (c :: s)); reflexivity.
Qed.

(** C4, at the input where the code departs from it.  Text that parses to
    a value that is not a mapping stays that value: it is not replaced by
    the empty mapping, and a call of [record_feedback] with it is answered
    with the error of a call [f( **v )] on a value that is no mapping, not
    with what the handler's call on the empty mapping gives (the error of a
    missing argument). *)
Theorem parsed_list_is_kept (s : str) (v : pyval) (w : world) :
  s <> [] ->
  json_loads s = Return v ->
  (forall d, v <> PDict d) ->
  normalize_args (PStr s) = v
  /\ normalize_args (PStr s) <> PDict []
  /\ _dispatch_tool (py "record_feedback") (PStr s) w
     = (Return (py "Tool 'record_feedback' argument error: "
                ++ describe (NotAMapping (py "record_feedback") v)), w)
  /\ _dispatch_tool (py "record_feedback") (PDict []) w
     = (Return (py "Tool 'record_feedback' argument error: "
                ++ describe (MissingArguments (py "record_feedback") [py "question"])), w).
Proof.
  intros Ns Js Nd.
  assert (E : normalize_args (PStr s) = v).
  { unfold normalize_args. destruct s; [congruence|]. simpl. now rewrite Js. }
  split; [exact E|]. split; [rewrite E; apply Nd|]. split.
  - unfold _dispatch_tool. rewrite E.
    destruct v; try reflexivity. exfalso. now apply (Nd entries).
  - reflexivity.
Qed.

End DispatchFacts.

(** ** The tool round of the agent *)

Lemma requests_of_app (a b : list event) :
  requests_of (a ++ b) = requests_of a ++ requests_of b.
Proof.
  induction a as [|[t|m p d o|r] a IH]; simpl; [reflexivity|exact IH|exact IH|].
  now rewrite IH.
Qed.

Lemma quiet_refl (w : world) : quiet w w.
Proof. split; [reflexivity|]. exists []. now rewrite app_nil_r. Qed.

Lemma quiet_trans (a b c : world) : quiet a b -> quiet b c -> quiet a c.
Proof.
  intros [O1 (e1 & T1 & R1)] [O2 (e2 & T2 & R2)]. split; [congruence|].
  exists (e1 ++ e2). rewrite T2, T1, app_assoc, requests_of_app, R1, R2. now split.
Qed.

Lemma local_ret {A : Type} (a : A) : local (ret a).
Proof. intro w. apply quiet_refl. Qed.

Lemma local_lift {A : Type} (r : result A) : local (lift r).
Proof. intro w. apply quiet_refl. Qed.

Lemma local_asks {A : Type} (f : world -> A) : local (asks f).
Proof. intro w. apply quiet_refl. Qed.

Lemma local_path_exists (p : str) : local (path_exists p).
Proof. intro w. apply quiet_refl. Qed.

Lemma local_utc_iso : local _utc_iso.
Proof. intro w. split; [reflexivity|]. exists []. simpl. now rewrite app_nil_r. Qed.

Lemma local_getcwd : local getcwd.
Proof. intro w. apply quiet_refl. Qed.

Lemma local_print (t : str) : local (print t).
Proof.
  intro w. destruct (print_cases t w) as [(e & ->)| ->];
    (split; [reflexivity|]); eexists [_]; split; reflexivity.
Qed.

Lemma local_write_line (m : open_mode) (p : str) (d : line) : local (write_line m p d).
Proof.
  intro w. destruct (write_line_cases m p d w) as [(e & ->)| ->];
    (split; [reflexivity|]); eexists [_]; split; reflexivity.
Qed.

Lemma local_bind {A B : Type} (m : M A) (k : A -> M B) :
  local m -> (forall a, local (k a)) -> local (bind m k).
Proof.
  intros Lm Lk w. unfold bind. specialize (Lm w).
  destruct (m w) as [[a|e] w1]; simpl in *; [|exact Lm].
  eapply quiet_trans; [exact Lm|apply Lk].
Qed.

Lemma local_try {A : Type} (m : M A) (h : exn -> M A) :
  local m -> (forall e, local (h e)) -> local (try_except m h).
Proof.
  intros Lm Lh w. unfold try_except. specialize (Lm w).
  destruct (m w) as [[a|e] w1]; simpl in *; [exact Lm|].
  eapply quiet_trans; [exact Lm|apply Lh].
Qed.

Ltac local_steps :=
  repeat first
    [ apply local_ret | apply local_lift | apply local_asks
    | apply local_path_exists | apply local_utc_iso | apply local_print
    | apply local_getcwd | apply local_write_line
    | apply local_bind; [|intro]
    | apply local_try; [|intro]
    | match goal with
      | |- local (if ?b then _ else _) => destruct b
      | |- local (let _ := _ in _) => cbv zeta
      end ].

Section RoundFacts.
Context `{Interp}.

Lemma local_dispatch (name : str) (args : pyval) : local (_dispatch_tool name args).
Proof.
  unfold _dispatch_tool. local_steps.
Qed.

Lemma round_length (w w2 : world) (tcs : list tool_call) (rs : list str) :
  round w tcs rs w2 -> length rs = length tcs.
Proof. induction 1; simpl; congruence. Qed.

Lemma round_quiet (w w2 : world) (tcs : list tool_call) (rs : list str) :
  round w tcs rs w2 -> quiet w w2.
Proof.
  induction 1 as [|w tc tcs r w1 rs w2 D _ IH]; [apply quiet_refl|].
  eapply quiet_trans; [|exact IH].
  pose proof (local_dispatch (fn_name tc) (parse_arguments tc) w) as L.
  now rewrite D in L.
Qed.

(** The loop over the tool calls runs the whole round and collects one
    tool message per call. *)
Lemma for_each_round (tcs : list tool_call) (messages : list message) (w : world) :
  exists rs w2,
    round w tcs rs w2
    /\ for_each tcs tool_step messages w
       = (Return (messages ++ tool_messages tcs rs), w2).
Proof.
  revert messages w. induction tcs as [|tc tcs IH]; intros messages w.
  - exists [], w. split; [constructor|]. simpl. unfold ret. now rewrite app_nil_r.
  - destruct (dispatch_returns (fn_name tc) (parse_arguments tc) w) as (r & w1 & D).
    destruct (IH (messages ++ [ToolMessage (tc_id tc) (fn_name tc) r]) w1)
      as (rs & w2 & R & F).
    exists (r :: rs), w2. split; [econstructor; eassumption|].
    cbn [for_each]. unfold bind at 1. unfold tool_step at 1. unfold bind at 1.
    rewrite D. unfold ret at 1. rewrite F. unfold tool_messages. simpl.
    now rewrite <- app_assoc.
Qed.

(** C1. When the first answer of the provider carries tool calls, the
    loop dispatches every one of them, in the order given, each in the
    world the previous one has left, and each returns a string whatever
    the others did.  Between the first request and the second the trace has
    no request: the second request is sent after the last dispatch, and its
    messages are the first ones, the record of the tool calls, and one tool
    message per call, in order, with the call's identifier, the tool's name
    and the result. *)
Theorem tool_round_then_second_call
    (user_text : str) (history : option (list pyval)) (w : world)
    (pairs : list (pyval * pyval)) (msg : reply) (tc : tool_call) (tcs : list tool_call) :
  _provider_ready w = true ->
  client_failure (outside w) = None ->
  _tuplize history = Return pairs ->
  let model := match environ (outside w) (py "OPENAI_MODEL") with
               | Some m => m
               | None => py "gpt-4o-mini"
               end in
  let messages := [ChatMessage (py "system") (PStr (SYSTEM_PROMPT (outside w)))]
                  ++ history_messages pairs
                  ++ [ChatMessage (py "user") (PStr user_text)] in
  let first := {| req_model := model; req_messages := messages;
                  req_tools := Some TOOL_SPEC |} in
  provider (outside w) (requests_of (trace w) ++ [first]) = Return msg ->
  msg_tool_calls msg = Some (tc :: tcs) ->
  exists results w2 evs,
    round (log w (EvRequest first)) (tc :: tcs) results w2
    /\ length results = length (tc :: tcs)
    /\ trace w2 = trace w ++ [EvRequest first] ++ evs
    /\ requests_of evs = []
    /\ let second := {| req_model := model;
                        req_messages := messages ++ [ToolCallsMessage (tc :: tcs)]
                                        ++ tool_messages (tc :: tcs) results;
                        req_tools := None |} in
       run_agent user_text history w
       = (Return match provider (outside w) (requests_of (trace w) ++ [first; second]) with
                 | Return final => content_or_placeholder final
                 | Raise e => py "(Agent error) " ++ exn_name e ++ py ": " ++ exn_text e
                 end,
          log w2 (EvRequest second)).
Proof.
  intros Ready Client Hist model messages first Reply Calls.
  destruct (for_each_round (tc :: tcs) (messages ++ [ToolCallsMessage (tc :: tcs)])
              (log w (EvRequest first))) as (rs & w2 & R & F).
  destruct (round_quiet _ _ _ _ R) as [O (evs & T & Q)].
  exists rs, w2, evs. split; [exact R|]. split; [now apply round_length in R|].
  split; [rewrite T; cbn [trace log]; now rewrite <- app_assoc|]. split; [exact Q|].
  cbv zeta. unfold run_agent. rewrite Ready. cbn [negb].
  unfold try_except. unfold bind at 1. unfold make_client. rewrite Client.
  unfold bind at 1. unfold getenv. fold model.
  unfold bind at 1. unfold asks. unfold bind at 1. unfold lift. rewrite Hist.
  fold messages. fold first. unfold bind at 1. unfold chat_create at 1.
  cbn [trace log]. rewrite requests_of_app. cbn [requests_of].
  cbn [outside log]. rewrite Reply, Calls.
  unfold bind at 1. rewrite F.
  unfold bind at 1. unfold chat_create. rewrite O.
  cbn [trace log outside]. rewrite T. cbn [trace log].
  rewrite !requests_of_app, Q. cbn [requests_of]. rewrite app_nil_r, <- !app_assoc.
  cbn [app].
  match goal with |- context [provider ?o ?l] => destruct (provider o l) end;
    reflexivity.
Qed.

End RoundFacts.

(** ** History adapter *)

Section AdapterFacts.
Context `{Interp}.

Lemma tuplize_loop_pairs (h : list pyval) (ts : list turn) :
  Forall2 tagged h ts ->
  forall acc pending,
    tuplize_loop h (acc, pending_value pending)
    = Return (acc ++ map as_values (pair_up pending ts)).
Proof.
  induction 1 as [|m t h ts (d & -> & Er & Ec) F IH]; intros acc pending.
  - simpl. now rewrite app_nil_r.
  - cbn [tuplize_loop tuplize_step pair_up]. rewrite Er, Ec. cbn [is_str].
    destruct (str_eqb (role t) (py "user")).
    + apply (IH acc (Some (content t))).
    + destruct (str_eqb (role t) (py "assistant")).
      * rewrite (IH _ None). cbn [map]. rewrite <- app_assoc. cbn [app].
        do 3 f_equal. unfold as_values. cbn [fst snd]. f_equal.
        destruct pending as [[|c u]|]; reflexivity.
      * apply IH.
Qed.

Lemma pair_up_split (pending : option str) (pre rest : list turn) (u a : str) :
  pair_up pending
    (pre ++ {| role := py "user"; content := u |}
         :: {| role := py "assistant"; content := a |} :: rest)
  = pair_up pending pre ++ (u, a) :: pair_up None rest.
Proof.
  revert pending. induction pre as [|t pre IH]; intro pending.
  - reflexivity.
  - cbn [app pair_up].
    destruct (str_eqb (role t) (py "user")); [apply IH|].
    destruct (str_eqb (role t) (py "assistant")); [|apply IH].
    cbn [app]. f_equal. apply IH.
Qed.

Lemma pair_up_trailing_user (pending : option str) (ts : list turn) (u : str) :
  pair_up pending (ts ++ [{| role := py "user"; content := u |}]) = pair_up pending ts.
Proof.
  revert pending. induction ts as [|t ts IH]; intro pending.
  - reflexivity.
  - cbn [app pair_up].
    destruct (str_eqb (role t) (py "user")); [apply IH|].
    destruct (str_eqb (role t) (py "assistant")); [|apply IH].
    f_equal. apply IH.
Qed.

Lemma tuplize_tagged (h : list pyval) (ts : list turn) :
  Forall2 tagged h ts ->
  _tuplize (Some h) = Return (map as_values (pair_up None ts)).
Proof.
  intro F. destruct F as [|m t h ts T F]; [reflexivity|].
  assert (F' : Forall2 tagged (m :: h) (t :: ts)) by now constructor.
  destruct T as (d & -> & _).
  apply (tuplize_loop_pairs _ _ F' [] None).
Qed.

(** C6. On role-tagged messages [_tuplize] is the pairing of the
    specification: an absent or empty history gives no pair; each assistant
    message is paired with the most recent unmatched user message, after
    which no user is pending; a user message that ends the history is
    dropped; and the adapter touches nothing of the world. *)
Theorem tuplize_pairs_turns :
  _tuplize None = Return [] /\ _tuplize (Some []) = Return []
  /\ (forall h ts,
        Forall2 tagged h ts ->
        _tuplize (Some h) = Return (map as_values (pair_up None ts)))
  /\ (forall pre rest u a,
        pair_up None
          (pre ++ {| role := py "user"; content := u |}
               :: {| role := py "assistant"; content := a |} :: rest)
        = pair_up None pre ++ (u, a) :: pair_up None rest)
  /\ (forall h ts m u,
        Forall2 tagged h ts ->
        tagged m {| role := py "user"; content := u |} ->
        _tuplize (Some (h ++ [m])) = _tuplize (Some h))
  /\ (forall history w, lift (_tuplize history) w = (_tuplize history, w)).
Proof.
  split; [reflexivity|]. split; [reflexivity|]. split; [exact tuplize_tagged|].
  split; [intros; apply pair_up_split|]. split; [|reflexivity].
  intros h ts m u F T.
  rewrite (tuplize_tagged _ _ F).
  rewrite (tuplize_tagged (h ++ [m]) (ts ++ [{| role := py "user"; content := u |}])).
  - now rewrite pair_up_trailing_user.
  - apply Forall2_app; [exact F|]. now constructor.
Qed.

End AdapterFacts.

(** ** Readiness *)

Section ReadinessFacts.
Context `{Interp}.

(** C7 (amended). When the credential, once the whitespace around it is
    stripped, is empty, or starts with neither accepted prefix, or has at
    most 40 characters, [run_agent] returns the setup message and leaves
    the world as it was: no request reaches the provider.  The readiness
    check reads the credential and nothing else. *)
Theorem unusable_credential_stops
    (user_text : str) (history : option (list pyval)) (w : world) :
  let k := strip (credential w) in
  k = []
  \/ (startswith k (py "sk-") = false /\ startswith k (py "sk-proj-") = false)
  \/ (length k <= 40)%nat ->
  run_agent user_text history w = (Return _SETUP_MSG, w)
  /\ forall w2, credential w2 = credential w -> _provider_ready w2 = _provider_ready w.
Proof.
  intros k Bad. split.
  - unfold run_agent.
    replace (_provider_ready w) with false; [reflexivity|].
    symmetry. unfold _provider_ready. fold (credential w). fold k.
    destruct Bad as [E|[[P1 P2]|L]].
    + now rewrite E.
    + now rewrite P1, P2.
    + apply andb_false_intro2. apply Nat.ltb_ge. exact L.
  - intros w2 E. unfold _provider_ready. fold (credential w2). fold (credential w).
    now rewrite E.
Qed.
End ReadinessFacts.

(** ** The addresses that are accepted *)

Lemma atoms_star (s : str) : Forall atom s -> matches (Star email_atom) s.
Proof.
  induction 1 as [|c s A F IH]; [constructor|].
  apply (m_star_app _ [c] s); [|exact IH].
  constructor. now apply email_atom_class.
Qed.

Lemma atoms_plus (s : str) : s <> [] -> Forall atom s -> matches (Plus email_atom) s.
Proof.
  intros N F. destruct F as [|c s A F]; [congruence|].
  apply (m_cat _ _ [c] s); [|now apply atoms_star].
  constructor. now apply email_atom_class.
Qed.

Lemma email_shape_fullmatch (s : str) : email_shape s -> fullmatch EMAIL_RE s = true.
Proof.
  intros (l & d & t & -> & Nl & Nd & Nt & Al & Ad & At).
  apply fullmatch_matches. unfold EMAIL_RE.
  apply m_cat; [now apply atoms_plus|].
  apply (m_cat _ _ [AT]); [constructor|].
  apply m_cat; [now apply atoms_plus|].
  apply (m_cat _ _ [DOT]); [constructor|]. now apply atoms_plus.
Qed.

(** X1. [EMAIL_RE.match] accepts exactly two kinds of text: a local part, an
    at sign, a domain, a dot and a rest, where the three parts are not
    empty and hold no whitespace and no at sign; and such a text followed
    by one line feed, because the [$] of the pattern also matches before a
    final line feed. *)
Theorem EMAIL_RE_accepts (s : str) :
  re_match EMAIL_RE s = true
  <-> email_shape s \/ exists s', s = s' ++ [LF] /\ email_shape s'.
Proof.
  unfold re_match. split.
  - intro E. apply orb_prop in E as [E|E]; [left; now apply EMAIL_RE_shape|right].
    destruct (rev s) as [|c before] eqn:R; [discriminate|].
    apply andb_prop in E as [Ec E]. apply N.eqb_eq in Ec. subst c.
    exists (rev before). split; [|now apply EMAIL_RE_shape].
    rewrite <- (rev_involutive s), R. reflexivity.
  - intros [S|(s' & -> & S)].
    + now rewrite (email_shape_fullmatch _ S).
    + rewrite rev_app_distr. simpl. rewrite rev_involutive.
      rewrite (email_shape_fullmatch _ S). apply orb_true_r.
Qed.

(** ** The values that are stored *)

Section CleanedValues.
Context `{Interp}.

Lemma clean_returns (v : pyval) (n : Z) (t : str) :
  _clean v n = Return t ->
  exists s, (v = PStr s \/ (truthy v = false /\ s = []))
            /\ t = truncate n (collapse (strip s)).
Proof.
  unfold _clean, py_or. destruct (truthy v) eqn:T.
  - destruct v; try discriminate. intros [= <-]. eauto.
  - intros [= <-]. exists []. split; [now right|reflexivity].
Qed.

(** X2. For a cap of at least 1, whatever [_clean] returns has at most as
    many characters as the cap, holds no carriage return and no line feed,
    and has no whitespace at either end. *)
Theorem clean_bounds (v : pyval) (n : Z) (t : str) :
  (1 <= n)%Z ->
  _clean v n = Return t ->
  (Z.of_nat (length t) <= n)%Z /\ ~ In CR t /\ ~ In LF t /\ trimmed t.
Proof.
  intros Hn E. apply clean_returns in E as (s & _ & ->).
  destruct (collapse_no_newline (strip s)) as [C L].
  split; [now apply truncate_length|].
  split; [apply truncate_no_char; trivial; discriminate|].
  split; [apply truncate_no_char; trivial; discriminate|].
  apply truncate_trimmed; [exact Hn|]. apply collapse_trimmed, strip_trimmed.
Qed.

End CleanedValues.

(** ** What the tools write *)

Lemma write_line_succeeds (k : nat) (mode : open_mode) (path : str) (data : line) (w : world) :
  next_succeed (S k) w ->
  write_line mode path data w = (Return tt, written mode path data w)
  /\ next_succeed k (written mode path data w).
Proof.
  unfold next_succeed, write_line, written. intro F.
  destruct (faults w) as [|[x|] rest]; simpl in *.
  - split; [reflexivity|]. destruct k; constructor.
  - inversion F; discriminate.
  - split; [reflexivity|]. now inversion F.
Qed.

Lemma write_line_fails (mode : open_mode) (path : str) (data : line) (w : world)
    (x : failure) (rest : list (option failure)) :
  faults w = Some x :: rest ->
  write_line mode path data w = (Raise (raised x), broken mode path data x w).
Proof. unfold write_line, broken. now intros ->. Qed.

Lemma print_succeeds (k : nat) (text : str) (w : world) :
  prints_succeed (S k) w ->
  print text w = (Return tt, printed text w)
  /\ prints_succeed k (printed text w).
Proof.
  unfold prints_succeed, print, printed. intro F.
  destruct (stdout w) as [|[e|] rest]; simpl in *.
  - split; [reflexivity|]. destruct k; constructor.
  - inversion F; discriminate.
  - split; [reflexivity|]. now inversion F.
Qed.

Lemma print_fails (text : str) (w : world) (e : exn) (rest : list (option exn)) :
  stdout w = Some e :: rest ->
  print text w = (Raise e, log (set_stdout w rest) (EvPrint text (Some e))).
Proof. unfold print. now intros ->. Qed.

Lemma firstn_all_le {A : Type} (P : A -> Prop) (k k' : nat) (l : list A) :
  (k <= k')%nat -> Forall P (firstn k' l) -> Forall P (firstn k l).
Proof.
  revert k' l. induction k as [|k IH]; intros k' l L F; [constructor|].
  destruct k' as [|k']; [lia|]. destruct l as [|o l]; [constructor|].
  cbn [firstn] in *. inversion F as [|? ? Ho Fl]. constructor; [exact Ho|].
  apply (IH k'); [lia|exact Fl].
Qed.

Lemma next_succeed_le (k k' : nat) (w : world) :
  (k <= k')%nat -> next_succeed k' w -> next_succeed k w.
Proof. apply firstn_all_le. Qed.

Lemma nonblank_strip (s : str) : forallb isspace s = false -> strip s <> [].
Proof.
  intros B E. destruct (strip_split s) as (pre & post & Es & Fp & Fq).
  rewrite E in Es. simpl in Es. rewrite Es, forallb_app, Fp, Fq in B. discriminate.
Qed.

Lemma nonblank_clean (s : str) (n : Z) :
  (1 <= n)%Z -> forallb isspace s = false -> truncate n (collapse (strip s)) <> [].
Proof.
  intros Hn B E. apply nonblank_strip in B.
  assert (L : collapse (strip s) <> []).
  { intro C. apply (f_equal (@length _)) in C. rewrite collapse_length in C.
    destruct (strip s); [congruence|discriminate]. }
  destruct (Z.ltb_spec n (Z.of_nat (length (collapse (strip s))))) as [Hl|Hl].
  - destruct (truncate_long n _ (conj Hn Hl)) as [E' _]. rewrite E in E'.
    symmetry in E'. now apply app_eq_nil in E' as [_ ?].
  - rewrite truncate_short in E by lia. contradiction.
Qed.

Lemma file_put_same (f : str -> option (list line)) (p : str) (c : list line) :
  file_put f p c p = Some c.
Proof. unfold file_put. now rewrite str_eqb_refl. Qed.

Lemma file_put_other (f : str -> option (list line)) (p q : str) (c : list line) :
  q <> p -> file_put f p c q = f q.
Proof. intro N. unfold file_put. now rewrite (proj2 (str_eqb_neq q p) N). Qed.

Lemma file_left_same (f : str -> option (list line)) (p : str) (r : residue)
    (mode : open_mode) (d : line) :
  file_left f p r mode d p = left_behind r mode (f p) d.
Proof. unfold file_left. now rewrite str_eqb_refl. Qed.

Lemma file_left_other (f : str -> option (list line)) (p q : str) (r : residue)
    (mode : open_mode) (d : line) :
  q <> p -> file_left f p r mode d q = f q.
Proof. intro N. unfold file_left. now rewrite (proj2 (str_eqb_neq q p) N). Qed.

Lemma files_written (mode : open_mode) (path : str) (data : line) (w : world) :
  files (written mode path data w)
  = file_put (files w) path (opened mode (files w path) ++ [data]).
Proof. reflexivity. Qed.

Lemma files_broken (mode : open_mode) (path : str) (data : line) (x : failure) (w : world) :
  files (broken mode path data x w)
  = file_left (files w) path (reached x) mode data.
Proof. reflexivity. Qed.

Lemma file_ops_app (a b : list event) : file_ops (a ++ b) = file_ops a ++ file_ops b.
Proof.
  induction a as [|[t o|m p d o|r] a IH]; simpl; [reflexivity|exact IH| |exact IH].
  now rewrite IH.
Qed.


Section LeadWrites.
Context `{Interp}.

(** The run of [record_customer_interest] once both validations have
    passed. *)
Lemma lead_accepted (email name message : str) (w : world) :
  re_match EMAIL_RE (normalized_email email) = true ->
  forallb isspace name = false ->
  let ts := clock (outside w) (ticks w) in
  let e := normalized_email email in
  let n := truncate 200 (collapse (strip name)) in
  let m := truncate 800 (collapse (strip (default_message message))) in
  record_customer_interest (PStr email) (PStr name) (PStr message) w
  = (print (py "[LEAD] " ++ ts ++ SEP ++ e ++ SEP ++ n ++ SEP ++ m) ;;;
     csv <- asks LEADS_CSV ;;
     present <- path_exists csv ;;
     (if negb present then write_line ModeW csv header_row else ret tt) ;;;
     write_line ModeA csv (CsvRow [ts; e; n; m]) ;;;
     jsonl <- asks LEADS_JSONL ;;
     _append_jsonl jsonl
       [(py "timestamp", ts); (py "email", e); (py "name", n); (py "message", m)] ;;;
     ret (py "Lead saved.")) (set_ticks w (S (ticks w))).
Proof.
  intros V B ts e n m.
  unfold record_customer_interest. unfold bind at 1 2 3. unfold lift.
  rewrite !clean_str, clean_message. fold (normalized_email email). rewrite V.
  assert (T : truthy (PStr (truncate 200 (collapse (strip name)))) = true).
  { pose proof (nonblank_clean name 200 ltac:(lia) B) as Nn.
    now destruct (truncate 200 (collapse (strip name))). }
  rewrite T. reflexivity.
Qed.

(** X3. A lead whose address passes the check and whose name is not blank,
    when its line is printed and the next three file operations succeed:
    the answer is "Lead saved."; the CSV file holds what it held (the
    header row alone, when it was missing) followed by one row with the
    timestamp, the lowercased address, the cleaned name and the cleaned
    message; the JSONL mirror holds what it held followed by one line with
    the same four values; and no other file changes. *)
Theorem lead_recorded (email name message : str) (w : world) :
  re_match EMAIL_RE (normalized_email email) = true ->
  forallb isspace name = false ->
  prints_succeed 1 w ->
  next_succeed 3 w ->
  let ts := clock (outside w) (ticks w) in
  let e := normalized_email email in
  let n := truncate 200 (collapse (strip name)) in
  let m := truncate 800 (collapse (strip (default_message message))) in
  exists w',
    record_customer_interest (PStr email) (PStr name) (PStr message) w
    = (Return (py "Lead saved."), w')
    /\ files w' (LEADS_CSV w)
       = Some (match files w (LEADS_CSV w) with
               | Some rows => rows
               | None => [header_row]
               end ++ [CsvRow [ts; e; n; m]])
    /\ files w' (LEADS_JSONL w)
       = Some (or_nil (files w (LEADS_JSONL w))
               ++ [JsonLine [(py "timestamp", ts); (py "email", e);
                             (py "name", n); (py "message", m)]])
    /\ (forall p, p <> LEADS_CSV w -> p <> LEADS_JSONL w -> files w' p = files w p).
Proof.
  intros V B P F ts e n m.
  rewrite (lead_accepted email name message w V B). cbv zeta.
  fold ts e n m. unfold bind at 1.
  destruct (print_succeeds 0 (py "[LEAD] " ++ ts ++ SEP ++ e ++ SEP ++ n ++ SEP ++ m)
              (set_ticks w (S (ticks w))) P) as [-> _].
  set (w1 := printed _ _).
  assert (F1 : next_succeed 3 w1) by exact F.
  assert (Fw1 : files w1 = files w) by reflexivity.
  assert (D : LEADS_JSONL w <> LEADS_CSV w).
  { intro E. apply path_join_inj in E. discriminate. }
  unfold bind at 1. unfold asks at 1. change (LEADS_CSV w1) with (LEADS_CSV w).
  unfold bind at 1. unfold path_exists. rewrite Fw1.
  destruct (files w (LEADS_CSV w)) as [rows|] eqn:Ef; cbn [negb].
  - unfold bind at 1. unfold ret at 1. unfold bind at 1.
    apply (next_succeed_le 2) in F1; [|lia].
    destruct (write_line_succeeds 1 ModeA (LEADS_CSV w) (CsvRow [ts; e; n; m]) w1 F1)
      as [-> F2].
    unfold bind at 1. unfold asks.
    match goal with |- context [LEADS_JSONL ?u] =>
      change (LEADS_JSONL u) with (LEADS_JSONL w) end.
    unfold bind at 1. unfold _append_jsonl.
    match goal with |- context [write_line ?md ?p ?d ?u] =>
      destruct (write_line_succeeds 0 md p d u F2) as [-> _] end.
    unfold ret. eexists. split; [reflexivity|].
    rewrite !files_written, Fw1, Ef. cbn [opened]. split; [|split].
    + rewrite file_put_other by (intro E; now apply D). apply file_put_same.
    + rewrite file_put_same. rewrite file_put_other by exact D. reflexivity.
    + intros p P1 P2. now rewrite !file_put_other.
  - unfold bind at 1.
    destruct (write_line_succeeds 2 ModeW (LEADS_CSV w) header_row w1 F1) as [-> F2].
    unfold bind at 1.
    match goal with |- context [write_line ?md ?p ?d ?u] =>
      destruct (write_line_succeeds 1 md p d u F2) as [-> F3] end.
    unfold bind at 1. unfold asks.
    match goal with |- context [LEADS_JSONL ?u] =>
      change (LEADS_JSONL u) with (LEADS_JSONL w) end.
    unfold bind at 1. unfold _append_jsonl.
    match goal with |- context [write_line ?md ?p ?d ?u] =>
      destruct (write_line_succeeds 0 md p d u F3) as [-> _] end.
    unfold ret. eexists. split; [reflexivity|].
    rewrite !files_written, Fw1. cbn [opened app].
    rewrite (file_put_same (files w)). cbn [opened app].
    assert (Fj : file_put (files w) (LEADS_CSV w) [header_row] (LEADS_JSONL w)
                 = files w (LEADS_JSONL w)) by now apply file_put_other.
    split; [|split].
    + rewrite file_put_other by (intro E; now apply D).
      rewrite file_put_same. reflexivity.
    + rewrite file_put_same, file_put_other by exact D. now rewrite Fj.
    + intros p P1 P2. now rewrite !file_put_other.
Qed.




(** X5. The two files of a lead are not written as one: when the line of
    the lead is printed, the CSV file exists, the append to it succeeds and
    the write to the JSONL mirror fails, [record_customer_interest] raises
    that failure and the CSV file keeps the new row.  The mirror holds what
    the failed write has left of it: what it held when the file was not
    opened; that and nothing more (an empty file, when it was missing) when
    nothing reached it; that and a part of the line; or that and the whole
    line, when the flush or the sync failed. *)
Theorem mirror_failure_keeps_row
    (email name message : str) (w : world) (rows : list line)
    (x : failure) (rest : list (option failure)) :
  re_match EMAIL_RE (normalized_email email) = true ->
  forallb isspace name = false ->
  prints_succeed 1 w ->
  files w (LEADS_CSV w) = Some rows ->
  faults w = None :: Some x :: rest ->
  let ts := clock (outside w) (ticks w) in
  let e := normalized_email email in
  let n := truncate 200 (collapse (strip name)) in
  let m := truncate 800 (collapse (strip (default_message message))) in
  let mirror := JsonLine [(py "timestamp", ts); (py "email", e);
                          (py "name", n); (py "message", m)] in
  exists w',
    record_customer_interest (PStr email) (PStr name) (PStr message) w
    = (Raise (raised x), w')
    /\ files w' (LEADS_CSV w) = Some (rows ++ [CsvRow [ts; e; n; m]])
    /\ files w' (LEADS_JSONL w)
       = match reached x with
         | Unopened => files w (LEADS_JSONL w)
         | Opened => Some (or_nil (files w (LEADS_JSONL w)))
         | Part => Some (or_nil (files w (LEADS_JSONL w)) ++ [Torn mirror])
         | Whole => Some (or_nil (files w (LEADS_JSONL w)) ++ [mirror])
         end.
Proof.
  intros V B P Ef Fa ts e n m mirror.
  rewrite (lead_accepted email name message w V B). cbv zeta.
  fold ts e n m. unfold bind at 1.
  destruct (print_succeeds 0 (py "[LEAD] " ++ ts ++ SEP ++ e ++ SEP ++ n ++ SEP ++ m)
              (set_ticks w (S (ticks w))) P) as [-> _].
  set (w1 := printed _ _).
  assert (Fw1 : files w1 = files w) by reflexivity.
  assert (D : LEADS_JSONL w <> LEADS_CSV w).
  { intro Q. apply path_join_inj in Q. discriminate. }
  unfold bind at 1. unfold asks at 1. change (LEADS_CSV w1) with (LEADS_CSV w).
  unfold bind at 1. unfold path_exists. rewrite Fw1, Ef. cbn [negb].
  unfold bind at 1. unfold ret at 1. unfold bind at 1.
  assert (F1 : next_succeed 1 w1).
  { unfold next_succeed. change (faults w1) with (faults w). rewrite Fa.
    repeat constructor. }
  match goal with |- context [write_line ?md ?p ?d ?u] =>
    destruct (write_line_succeeds 0 md p d u F1) as [-> _] end.
  unfold bind at 1. unfold asks.
  match goal with |- context [LEADS_JSONL ?u] =>
    change (LEADS_JSONL u) with (LEADS_JSONL w) end.
  unfold bind at 1. unfold _append_jsonl.
  match goal with |- context [write_line ?md ?p ?d ?u] =>
    rewrite (write_line_fails md p d u x rest)
  end.
  - eexists. split; [reflexivity|].
    rewrite files_broken, files_written, Fw1, Ef. cbn [opened]. split.
    + rewrite file_left_other by (intro Q; now apply D). apply file_put_same.
    + rewrite file_left_same, file_put_other by exact D. fold mirror.
      destruct (reached x), (files w (LEADS_JSONL w)); reflexivity.
  - cbn [faults written log set_files set_faults set_ticks].
    change (faults w1) with (faults w). now rewrite Fa.
Qed.

End LeadWrites.

Section FeedbackWrites.
Context `{Interp}.

Lemma blank_question_run (question : str) (w : world) :
  forallb isspace question = true ->
  record_feedback (PStr question) w
  = (Return (py "Feedback requires a non-empty question."), w).
Proof.
  intro B. unfold record_feedback, bind, lift.
  rewrite clean_str, (strip_spaces question B). reflexivity.
Qed.

(** X6. A question that is falsy ([None], the empty string, an empty
    list) or that is whitespace only is answered with
    "Feedback requires a non-empty question."; nothing is printed and
    nothing is written. *)
Theorem blank_question_rejected (question : pyval) (w : world) :
  truthy question = false
  \/ (exists s, question = PStr s /\ forallb isspace s = true) ->
  record_feedback question w
  = (Return (py "Feedback requires a non-empty question."), w).
Proof.
  intros [T|(s & -> & B)]; [|now apply blank_question_run].
  unfold record_feedback, bind, lift. unfold _clean, py_or. rewrite T. reflexivity.
Qed.

(** The run of [record_feedback] on a question that is not blank. *)
Lemma feedback_accepted (question : str) (w : world) :
  forallb isspace question = false ->
  let ts := clock (outside w) (ticks w) in
  let q := stored_question question in
  let entry := [(py "timestamp", ts); (py "question", q)] in
  record_feedback (PStr question) w
  = (print (py "[FEEDBACK] " ++ ts ++ SEP ++ q) ;;;
     try_except
       (primary <- asks FEEDBACK_JSONL ;;
        _append_jsonl primary entry ;;;
        print (py "[FEEDBACK" ++ [ARROW] ++ primary ++ py "] ok") ;;;
        ret (py "Feedback recorded."))
       (fall_back entry)) (set_ticks w (S (ticks w))).
Proof.
  intros B ts q entry. unfold record_feedback. unfold bind at 1. unfold lift.
  rewrite clean_str. fold (stored_question question). fold q.
  assert (T : truthy (PStr q) = true).
  { pose proof (nonblank_clean question 1000 ltac:(lia) B) as Nq.
    fold (stored_question question) in Nq. fold q in Nq. now destruct q. }
  rewrite T. reflexivity.
Qed.

(** The fallback, case by case. *)
Lemma fall_back_cases (entry : list (str * str)) (e : exn) (v : world) :
  match cwd (outside v) with
  | Raise e2 => fall_back entry e v = (Return (both_failed e e2), v)
  | Return dir =>
      let path := fallback_path dir in
      let text := py "[FEEDBACK" ++ [ARROW] ++ path ++ py "] fallback ok" in
      match hd None (faults v) with
      | Some y =>
          fall_back entry e v
          = (Return (both_failed e (raised y)), broken ModeA path (JsonLine entry) y v)
      | None =>
          let v1 := written ModeA path (JsonLine entry) v in
          match hd None (stdout v) with
          | Some e2 =>
              fall_back entry e v
              = (Return (both_failed e e2),
                 log (set_stdout v1 (tl (stdout v))) (EvPrint text (Some e2)))
          | None => fall_back entry e v = (Return (fallback_used path), printed text v1)
          end
      end
  end.
Proof.
  unfold fall_back, try_except, bind, getcwd, _append_jsonl, write_line, print, ret,
    broken, written, printed.
  cbv beta.
  destruct (cwd (outside v)) as [dir|e2]; [|reflexivity]. cbv zeta.
  destruct (faults v) as [|[y|] rest]; cbn [hd tl stdout log set_files set_faults];
    try reflexivity;
    destruct (stdout v) as [|[e2|] out]; reflexivity.
Qed.

Lemma fall_back_returns (entry : list (str * str)) (e : exn) (v : world) :
  exists s v', fall_back entry e v = (Return s, v').
Proof.
  pose proof (fall_back_cases entry e v) as C.
  destruct (cwd (outside v)); [|eauto]. cbv zeta in C.
  destruct (hd None (faults v)); [eauto|].
  destruct (hd None (stdout v)); eauto.
Qed.

(** C9 (amended). When the first call of [print] succeeds, no exception
    leaves [record_feedback].  For a question that is not blank, when the
    primary write fails and the working directory can be read, the file
    operations of the call are that write and exactly one more, to
    [cwd/logs/feedback.jsonl]; when that one fails too, the answer is the
    composite text with both failures (as it is, with the failure of
    [print], when the fallback write succeeds and the print after it
    fails); otherwise the answer names the fallback path.  When the working
    directory cannot be read, the primary write is the only file operation,
    and the composite text carries its failure and that of reading the
    directory. *)
Theorem feedback_fallback (question : str) (w : world) :
  prints_succeed 1 w ->
  let run := record_feedback (PStr question) w in
  (exists s, fst run = Return s)
  /\ forall x rest,
       forallb isspace question = false ->
       faults w = Some x :: rest ->
       match cwd (outside w) with
       | Raise e2 =>
           fst run = Return (both_failed (raised x) e2)
           /\ file_ops (trace (snd run))
              = file_ops (trace w) ++ [(FEEDBACK_JSONL w, Some (raised x))]
       | Return dir =>
           file_ops (trace (snd run))
           = file_ops (trace w)
             ++ [(FEEDBACK_JSONL w, Some (raised x));
                 (fallback_path dir, option_map raised (hd None rest))]
           /\ fst run
              = Return match hd None rest, hd None (tl (stdout w)) with
                       | Some y, _ => both_failed (raised x) (raised y)
                       | None, Some e2 => both_failed (raised x) e2
                       | None, None => fallback_used (fallback_path dir)
                       end
       end.
Proof.
  intros P run. destruct (forallb isspace question) eqn:B.
  { subst run. rewrite (blank_question_run question w B).
    split; [eexists; reflexivity|discriminate]. }
  set (ts := clock (outside w) (ticks w)). set (q := stored_question question).
  set (entry := [(py "timestamp", ts); (py "question", q)]).
  set (w1 := printed (py "[FEEDBACK] " ++ ts ++ SEP ++ q) (set_ticks w (S (ticks w)))).
  assert (Start : record_feedback (PStr question) w
                  = try_except
                      (_append_jsonl (FEEDBACK_JSONL w) entry ;;;
                       print (py "[FEEDBACK" ++ [ARROW] ++ FEEDBACK_JSONL w ++ py "] ok") ;;;
                       ret (py "Feedback recorded."))
                      (fall_back entry) w1).
  { rewrite (feedback_accepted question w B). cbv zeta. fold ts q entry.
    unfold bind at 1.
    destruct (print_succeeds 0 (py "[FEEDBACK] " ++ ts ++ SEP ++ q)
                (set_ticks w (S (ticks w))) P) as [-> _].
    reflexivity. }
  assert (Tr : file_ops (trace w1) = file_ops (trace w)).
  { subst w1. cbn [trace printed log set_stdout set_ticks].
    rewrite file_ops_app. cbn [file_ops]. apply app_nil_r. }
  subst run. rewrite Start. clear Start. split.
  - unfold try_except at 1. unfold bind at 1. unfold _append_jsonl at 1.
    match goal with |- context [write_line ?md ?p ?d ?u] =>
      destruct (write_line_cases md p d u) as [(x & ->)| ->] end.
    + match goal with |- context [fall_back ?en ?e ?v] =>
        destruct (fall_back_returns en e v) as (s & v' & ->) end.
      eexists; reflexivity.
    + unfold bind at 1.
      match goal with |- context [print ?t ?u] =>
        destruct (print_cases t u) as [(e & ->)| ->] end.
      * match goal with |- context [fall_back ?en ?e ?v] =>
          destruct (fall_back_returns en e v) as (s & v' & ->) end.
        eexists; reflexivity.
      * unfold ret. eexists; reflexivity.
  - intros x rest _ Fa.
    set (w2 := broken ModeA (FEEDBACK_JSONL w) (JsonLine entry) x w1).
    assert (R : try_except
                  (_append_jsonl (FEEDBACK_JSONL w) entry ;;;
                   print (py "[FEEDBACK" ++ [ARROW] ++ FEEDBACK_JSONL w ++ py "] ok") ;;;
                   ret (py "Feedback recorded."))
                  (fall_back entry) w1
                = fall_back entry (raised x) w2).
    { unfold try_except at 1. unfold bind at 1. unfold _append_jsonl at 1.
      now rewrite (write_line_fails ModeA (FEEDBACK_JSONL w) (JsonLine entry) w1 x rest Fa). }
    rewrite R. clear R.
    assert (Tr2 : file_ops (trace w2)
                  = file_ops (trace w) ++ [(FEEDBACK_JSONL w, Some (raised x))]).
    { subst w2. cbn [trace broken log set_files set_faults].
      rewrite file_ops_app, Tr. reflexivity. }
    pose proof (fall_back_cases entry (raised x) w2) as C.
    change (cwd (outside w2)) with (cwd (outside w)) in C.
    destruct (cwd (outside w)) as [dir|e2].
    + cbv zeta in C.
      assert (Fa2 : faults w2 = rest).
      { subst w2. cbn [faults broken log set_files set_faults].
        change (faults w1) with (faults w). now rewrite Fa. }
      assert (Out : stdout w2 = tl (stdout w)) by reflexivity.
      rewrite Fa2, Out in C.
      destruct (hd None rest) as [y|].
      * rewrite C. cbn [fst snd trace broken log set_files set_faults].
        rewrite file_ops_app, Tr2, <- app_assoc. split; reflexivity.
      * destruct (hd None (tl (stdout w))) as [e2|]; rewrite C;
          cbn [fst snd trace printed written log set_files set_faults set_stdout];
          rewrite !file_ops_app, Tr2, <- !app_assoc; split; reflexivity.
    + rewrite C. cbn [fst snd]. split; [reflexivity|exact Tr2].
Qed.

(** X7. A question that is not blank, when its line and the line after
    the write are printed and the next file operation succeeds: the answer
    is "Feedback recorded."; the primary file holds what it held followed
    by one line with the timestamp and the cleaned question; no other file
    changes; and the stored question has at most 1000 characters and no
    carriage return or line feed. *)
Theorem feedback_recorded (question : str) (w : world) :
  forallb isspace question = false ->
  prints_succeed 2 w ->
  next_succeed 1 w ->
  let ts := clock (outside w) (ticks w) in
  let q := stored_question question in
  exists w',
    record_feedback (PStr question) w = (Return (py "Feedback recorded."), w')
    /\ files w' (FEEDBACK_JSONL w)
       = Some (or_nil (files w (FEEDBACK_JSONL w))
               ++ [JsonLine [(py "timestamp", ts); (py "question", q)]])
    /\ (forall p, p <> FEEDBACK_JSONL w -> files w' p = files w p)
    /\ (length q <= 1000)%nat /\ ~ In CR q /\ ~ In LF q.
Proof.
  intros B P F ts q. rewrite (feedback_accepted question w B). cbv zeta.
  fold ts q. unfold bind at 1.
  destruct (print_succeeds 1 (py "[FEEDBACK] " ++ ts ++ SEP ++ q)
              (set_ticks w (S (ticks w))) P) as [-> P1].
  set (w1 := printed _ _) in *.
  unfold try_except at 1. unfold bind at 1. unfold asks at 1.
  change (FEEDBACK_JSONL w1) with (FEEDBACK_JSONL w).
  unfold bind at 1. unfold _append_jsonl at 1.
  assert (F1 : next_succeed 1 w1) by exact F.
  match goal with |- context [write_line ?md ?p ?d ?u] =>
    destruct (write_line_succeeds 0 md p d u F1) as [-> _] end.
  set (w2 := written _ _ _ _).
  assert (P2 : prints_succeed 1 w2) by exact P1.
  unfold bind at 1.
  match goal with |- context [print ?t ?u] =>
    destruct (print_succeeds 0 t u P2) as [-> _] end.
  unfold ret. eexists. split; [reflexivity|].
  subst w2 w1. cbn [files log set_files set_faults set_ticks set_stdout written printed].
  destruct (collapse_no_newline (strip question)) as [C L].
  split; [rewrite file_put_same; now destruct (files w (FEEDBACK_JSONL w))|].
  split; [intros p Np; now apply file_put_other|].
  split; [pose proof (truncate_length 1000 (collapse (strip question)) ltac:(lia));
          unfold q, stored_question; lia|].
  split; apply truncate_no_char; trivial; try lia; discriminate.
Qed.

(** X8. A question that is not blank, when the write to the primary file
    fails, the working directory can be read, the next file operation
    succeeds and the two lines around them are printed: the answer names
    the fallback path; the fallback file holds what the failed write has
    left in it (which matters when the two paths are the same) followed by
    the line; every other file is as the failed write has left it; and a
    file that is neither the primary nor the fallback file is as it was. *)
Theorem feedback_falls_back
    (question : str) (w : world) (x : failure) (rest : list (option failure)) (dir : str) :
  forallb isspace question = false ->
  prints_succeed 2 w ->
  cwd (outside w) = Return dir ->
  faults w = Some x :: rest ->
  Forall (fun o => o = None) (firstn 1 rest) ->
  let ts := clock (outside w) (ticks w) in
  let q := stored_question question in
  let entry := JsonLine [(py "timestamp", ts); (py "question", q)] in
  let left := file_left (files w) (FEEDBACK_JSONL w) (reached x) ModeA entry in
  exists w',
    record_feedback (PStr question) w
    = (Return (fallback_used (fallback_path dir)), w')
    /\ files w' (fallback_path dir) = Some (or_nil (left (fallback_path dir)) ++ [entry])
    /\ (forall p, p <> fallback_path dir -> files w' p = left p)
    /\ (forall p, p <> fallback_path dir -> p <> FEEDBACK_JSONL w ->
                  files w' p = files w p).
Proof.
  intros B P Cw Fa Fr ts q entry left.
  rewrite (feedback_accepted question w B). cbv zeta.
  fold ts q. unfold bind at 1.
  destruct (print_succeeds 1 (py "[FEEDBACK] " ++ ts ++ SEP ++ q)
              (set_ticks w (S (ticks w))) P) as [-> P1].
  set (w1 := printed _ _) in *.
  unfold try_except at 1. unfold bind at 1. unfold asks at 1.
  change (FEEDBACK_JSONL w1) with (FEEDBACK_JSONL w).
  unfold bind at 1. unfold _append_jsonl at 1.
  rewrite (write_line_fails _ _ _ w1 x rest Fa). fold entry.
  set (w2 := broken _ _ _ _ _).
  pose proof (fall_back_cases [(py "timestamp", ts); (py "question", q)] (raised x) w2)
    as C.
  change (cwd (outside w2)) with (cwd (outside w)) in C. rewrite Cw in C.
  cbv zeta in C. fold entry in C.
  assert (Fa2 : faults w2 = rest).
  { subst w2. cbn [faults broken log set_files set_faults].
    change (faults w1) with (faults w). now rewrite Fa. }
  assert (E2 : hd None (faults w2) = None).
  { rewrite Fa2. destruct rest as [|o rest']; [reflexivity|]. now inversion Fr. }
  assert (O2 : hd None (stdout w2) = None).
  { change (stdout w2) with (stdout w1).
    unfold prints_succeed in P1. destruct (stdout w1) as [|o out]; [reflexivity|].
    now inversion P1. }
  rewrite E2, O2 in C. rewrite C. eexists. split; [reflexivity|].
  assert (Fl : files w2 = left) by reflexivity.
  cbn [files printed written log set_files set_faults set_stdout]. rewrite Fl.
  split; [rewrite file_put_same; now destruct (left (fallback_path dir))|].
  split; [intros p Np; now apply file_put_other|].
  intros p Np Nq. rewrite file_put_other by exact Np.
  subst left. now apply file_left_other.
Qed.

(** X22. A question that is not blank, when the write to the primary file
    succeeds and the print after it fails (the line has an arrow, which
    not every output can encode): the fallback runs although the question
    has been recorded.  When the working directory can be read, the
    fallback file is another file and its write succeeds, the question is
    in both files; the answer names the fallback path when the print after
    the fallback write succeeds, and is the composite text with the two
    failures of [print] when it fails as well. *)
Theorem print_failure_writes_twice
    (question : str) (w : world) (e : exn) (out : list (option exn)) (dir : str) :
  forallb isspace question = false ->
  stdout w = None :: Some e :: out ->
  next_succeed 2 w ->
  cwd (outside w) = Return dir ->
  fallback_path dir <> FEEDBACK_JSONL w ->
  let ts := clock (outside w) (ticks w) in
  let q := stored_question question in
  let entry := JsonLine [(py "timestamp", ts); (py "question", q)] in
  exists w',
    record_feedback (PStr question) w
    = (Return match hd None out with
              | None => fallback_used (fallback_path dir)
              | Some e2 => both_failed e e2
              end, w')
    /\ files w' (FEEDBACK_JSONL w)
       = Some (or_nil (files w (FEEDBACK_JSONL w)) ++ [entry])
    /\ files w' (fallback_path dir)
       = Some (or_nil (files w (fallback_path dir)) ++ [entry]).
Proof.
  intros B Out F Cw D ts q entry.
  rewrite (feedback_accepted question w B). cbv zeta.
  fold ts q. unfold bind at 1.
  assert (P : prints_succeed 1 (set_ticks w (S (ticks w)))).
  { unfold prints_succeed. cbn [stdout set_ticks]. rewrite Out. repeat constructor. }
  destruct (print_succeeds 0 (py "[FEEDBACK] " ++ ts ++ SEP ++ q) _ P) as [-> _].
  set (w1 := printed _ _).
  unfold try_except at 1. unfold bind at 1. unfold asks at 1.
  change (FEEDBACK_JSONL w1) with (FEEDBACK_JSONL w).
  unfold bind at 1. unfold _append_jsonl at 1.
  assert (F1 : next_succeed 2 w1) by exact F.
  match goal with |- context [write_line ?md ?p ?d ?u] =>
    destruct (write_line_succeeds 1 md p d u F1) as [-> F2] end.
  fold entry. set (w2 := written _ _ _ _) in *.
  unfold bind at 1.
  assert (Out2 : stdout w2 = Some e :: out).
  { subst w2 w1. cbn [stdout written printed log set_files set_faults set_stdout set_ticks].
    now rewrite Out. }
  rewrite (print_fails _ w2 e out Out2). set (w3 := log _ _).
  pose proof (fall_back_cases [(py "timestamp", ts); (py "question", q)] e w3) as C.
  change (cwd (outside w3)) with (cwd (outside w)) in C. rewrite Cw in C.
  cbv zeta in C. fold entry in C.
  assert (E3 : hd None (faults w3) = None).
  { change (faults w3) with (faults w2). unfold next_succeed in F2.
    destruct (faults w2) as [|o l]; [reflexivity|]. now inversion F2. }
  assert (O3 : stdout w3 = out) by reflexivity.
  rewrite E3, O3 in C.
  assert (Fl : files w3 = file_put (files w) (FEEDBACK_JSONL w)
                            (or_nil (files w (FEEDBACK_JSONL w)) ++ [entry])).
  { subst w3 w2 w1.
    cbn [files written printed log set_files set_faults set_stdout set_ticks].
    now destruct (files w (FEEDBACK_JSONL w)). }
  destruct (hd None out) as [e2|]; rewrite C; (eexists; split; [reflexivity|]);
    cbn [files printed written log set_files set_faults set_stdout]; rewrite Fl; split;
    try (rewrite file_put_other by (intro Q; now apply D); apply file_put_same);
    rewrite file_put_same, file_put_other by exact D;
    now destruct (files w (fallback_path dir)).
Qed.

End FeedbackWrites.

(** ** The arguments of a tool call *)

Section ArgumentChecks.
Context `{Interp}.

Lemma existsb_str (k : str) (l : list str) : existsb (str_eqb k) l = true <-> In k l.
Proof.
  rewrite existsb_exists. split.
  - intros (x & I & E). apply str_eqb_eq in E. now subst.
  - intro I. exists k. split; [exact I|apply str_eqb_refl].
Qed.

Lemma existsb_key (d : list (str * pyval)) (p : str) :
  existsb (fun kv => str_eqb (fst kv) p) d = true <-> In p (map fst d).
Proof.
  rewrite existsb_exists, in_map_iff. split.
  - intros (kv & I & E). apply str_eqb_eq in E. eauto.
  - intros (kv & E & I). exists kv. split; [exact I|]. rewrite E. apply str_eqb_refl.
Qed.

(** The three outcomes of the keyword check on a dict. *)
Lemma keywords_cases (fn : str) (params : list str) (d : list (str * pyval)) :
  (exact_keys d params /\ keywords fn params (PDict d) = Return d)
  \/ (exists k, In k (map fst d) /\ ~ In k params
                /\ keywords fn params (PDict d) = raise_fault (UnexpectedKeyword fn k))
  \/ (exists missing, missing <> []
                      /\ (forall p, In p missing <-> In p params /\ ~ In p (map fst d))
                      /\ (forall k, In k (map fst d) -> In k params)
                      /\ keywords fn params (PDict d)
                         = raise_fault (MissingArguments fn missing)).
Proof.
  unfold keywords.
  destruct (find _ d) as [[k v]|] eqn:Fi.
  - right. left. apply find_some in Fi as [I N]. exists k. cbn [fst] in N.
    split; [apply in_map_iff; now exists (k, v)|]. split; [|reflexivity].
    intro P. apply existsb_str in P. rewrite P in N. discriminate.
  - assert (Sub : forall k, In k (map fst d) -> In k params).
    { intros k I. apply in_map_iff in I as ([k' v] & <- & I).
      pose proof (find_none _ _ Fi _ I) as N. cbn [fst] in N.
      apply negb_false_iff in N. now apply existsb_str. }
    destruct (filter _ params) as [|p0 missing] eqn:Fl.
    + left. split; [|reflexivity]. intro k. split; [apply Sub|]. intro P.
      destruct (existsb (fun kv => str_eqb (fst kv) k) d) eqn:E;
        [now apply existsb_key|].
      assert (I : In k (filter (fun p => negb (existsb (fun kv => str_eqb (fst kv) p) d))
                          params))
        by (apply filter_In; split; [exact P|now rewrite E]).
      rewrite Fl in I. destruct I.
    + right. right. exists (p0 :: missing). split; [discriminate|].
      split; [|split; [exact Sub|reflexivity]].
      intro p. rewrite <- Fl, filter_In, negb_true_iff. split.
      * intros [P E]. split; [exact P|]. intro I. apply existsb_key in I. congruence.
      * intros [P N]. split; [exact P|].
        destruct (existsb _ d) eqn:E; [|reflexivity]. apply existsb_key in E. tauto.
Qed.

Lemma dispatch_no_arguments (decl : tool_decl) (w : world) :
  In decl TOOL_SPEC ->
  _dispatch_tool (tool_name decl) (PDict []) w
  = (Return (argument_error (tool_name decl)
               (MissingArguments (tool_name decl) (tool_required decl))), w).
Proof. intros [<-|[<-|[]]]; reflexivity. Qed.

(** The three outcomes of the keyword check, as the dispatcher reports
    them for a declared tool. *)
Lemma dispatch_argument_cases (decl : tool_decl) (d : list (str * pyval)) (w : world) :
  In decl TOOL_SPEC ->
  let name := tool_name decl in
  let params := tool_required decl in
  (exists k, In k (map fst d) /\ ~ In k params
             /\ _dispatch_tool name (PDict d) w
                = (Return (argument_error name (UnexpectedKeyword name k)), w))
  \/ (exists missing,
        missing <> []
        /\ (forall p, In p missing <-> In p params /\ ~ In p (map fst d))
        /\ (forall k, In k (map fst d) -> In k params)
        /\ _dispatch_tool name (PDict d) w
           = (Return (argument_error name (MissingArguments name missing)), w))
  \/ (exact_keys d params
      /\ exists body,
           handler_of name = Some (params, body)
           /\ forall s w', body d w = (Return s, w') ->
                           _dispatch_tool name (PDict d) w = (Return s, w')).
Proof.
  intros [<-|[<-|[]]]; cbv zeta; cbn [tool_name tool_required];
    unfold _dispatch_tool, handler_of, try_except, argument_error; cbn [normalize_args].
  - change (str_eqb (py "record_customer_interest") (py "record_customer_interest"))
      with true. cbv iota. unfold bind at 1 2 3. unfold lift.
    destruct (keywords_cases (py "record_customer_interest")
                [py "email"; py "name"; py "message"] d)
      as [[K ->]|[(k & I & N & ->)|(missing & Nm & M & S & ->)]].
    + right. right. split; [exact K|]. eexists. split; [reflexivity|].
      intros s w' Run. cbv beta in Run. now rewrite Run.
    + left. exists k. split; [exact I|]. split; [exact N|reflexivity].
    + right. left. exists missing. split; [exact Nm|]. split; [exact M|].
      split; [exact S|reflexivity].
  - change (str_eqb (py "record_feedback") (py "record_customer_interest")) with false.
    change (str_eqb (py "record_feedback") (py "record_feedback")) with true.
    cbv iota. unfold bind at 1 2 3. unfold lift.
    destruct (keywords_cases (py "record_feedback") [py "question"] d)
      as [[K ->]|[(k & I & N & ->)|(missing & Nm & M & S & ->)]].
    + right. right. split; [exact K|]. eexists. split; [reflexivity|].
      intros s w' Run. cbv beta in Run. now rewrite Run.
    + left. exists k. split; [exact I|]. split; [exact N|reflexivity].
    + right. left. exists missing. split; [exact Nm|]. split; [exact M|].
      split; [exact S|reflexivity].
Qed.

(** X9. The call of a declared tool on a mapping.  With a key that is no
    parameter of the tool, the answer is the argument error for an
    unexpected keyword, for such a key, and nothing happens.  With no such
    key and a parameter without a key, the answer is the argument error
    that lists exactly the parameters without a key, and nothing happens.
    When the keys are exactly the required names of the declaration, the
    handler of the dispatcher has those names as its parameters, it runs
    on the mapping, and what it returns is the answer. *)
Theorem dispatch_checks_arguments (decl : tool_decl) (d : list (str * pyval)) (w : world) :
  In decl TOOL_SPEC ->
  let name := tool_name decl in
  let params := tool_required decl in
  (forall k, In k (map fst d) -> ~ In k params ->
     exists k', In k' (map fst d) /\ ~ In k' params
                /\ _dispatch_tool name (PDict d) w
                   = (Return (argument_error name (UnexpectedKeyword name k')), w))
  /\ ((forall k, In k (map fst d) -> In k params) ->
      forall p, In p params -> ~ In p (map fst d) ->
        exists missing,
          In p missing
          /\ (forall q, In q missing <-> In q params /\ ~ In q (map fst d))
          /\ _dispatch_tool name (PDict d) w
             = (Return (argument_error name (MissingArguments name missing)), w))
  /\ (exact_keys d params ->
      exists body,
        handler_of name = Some (params, body)
        /\ forall s w', body d w = (Return s, w') ->
                        _dispatch_tool name (PDict d) w = (Return s, w')).
Proof.
  intros D name params.
  pose proof (dispatch_argument_cases decl d w D) as Cases. cbv zeta in Cases.
  fold name params in Cases. split; [|split].
  - intros k I N.
    destruct Cases as [C|[(missing & _ & _ & S & _)|[K _]]]; [exact C| |].
    + exfalso. apply N. now apply S.
    + exfalso. apply N. now apply K.
  - intros S p P N.
    destruct Cases as [(k & I & Nk & _)|[(missing & _ & M & _ & E)|[K _]]].
    + exfalso. apply Nk. now apply S.
    + exists missing. split; [now apply M|]. split; [exact M|exact E].
    + exfalso. apply N. now apply K.
  - intro K.
    destruct Cases as [(k & I & Nk & _)|[(missing & Nm & M & _)|[_ B]]]; [| |exact B].
    + exfalso. apply Nk. now apply K.
    + exfalso. destruct missing as [|p ?]; [congruence|].
      destruct (proj1 (M p) (or_introl eq_refl)) as [P N]. apply N. now apply K.
Qed.

Lemma clean_no_strip (v : pyval) (n : Z) :
  no_strip v -> _clean v n = raise_fault (NoAttribute v (py "strip")).
Proof.
  intros [T N]. unfold _clean, py_or. rewrite T.
  destruct v; try reflexivity. exfalso. now apply (N s).
Qed.

Lemma clean_cases (v : pyval) (n : Z) :
  (exists t, _clean v n = Return t) \/ no_strip v.
Proof.
  unfold _clean, py_or, no_strip. destruct (truthy v) eqn:T; [|eauto].
  destruct v; try (right; split; [reflexivity|discriminate]).
  left. eauto.
Qed.

Lemma clean_returns_strip (v : pyval) (n : Z) (t : str) :
  _clean v n = Return t -> ~ no_strip v.
Proof.
  intros E [T N]. apply clean_returns in E as (s & [->|[T' _]] & _).
  - now apply (N s).
  - congruence.
Qed.

(** X10. An argument that is truthy and no string (a number, a non-empty
    list) makes [_clean] fail on [.strip]: [record_customer_interest] with
    such an email, name or message raises that error for one of them, and
    [record_feedback] with such a question raises it, before anything is
    printed or written; through the dispatcher the error of
    [record_feedback] becomes the text "Tool 'record_feedback' failed: ..."
    and the world is unchanged. *)
Theorem wrong_type_writes_nothing (email name message question : pyval) (w : world) :
  (no_strip email \/ no_strip name \/ no_strip message ->
   exists v, (v = email \/ v = name \/ v = message)
             /\ record_customer_interest email name message w
                = (raise_fault (NoAttribute v (py "strip")), w))
  /\ (no_strip question ->
      record_feedback question w = (raise_fault (NoAttribute question (py "strip")), w)
      /\ _dispatch_tool (py "record_feedback") (PDict [(py "question", question)]) w
         = (Return (py "Tool 'record_feedback' failed: "
                    ++ describe (NoAttribute question (py "strip"))), w)).
Proof.
  split.
  - intro Bad. unfold record_customer_interest. unfold bind at 1. unfold lift at 1.
    destruct (clean_cases email 200) as [(e & Ee)|Ne];
      [|exists email; rewrite (clean_no_strip _ _ Ne); auto].
    rewrite Ee. unfold bind at 1. unfold lift at 1.
    destruct (clean_cases name 200) as [(n & En)|Nn];
      [|exists name; rewrite (clean_no_strip _ _ Nn); auto].
    rewrite En. unfold bind at 1. unfold lift at 1.
    assert (Nm : no_strip message).
    { destruct Bad as [Ne|[Nn|Nm]]; [| |exact Nm]; exfalso.
      - exact (clean_returns_strip _ _ _ Ee Ne).
      - exact (clean_returns_strip _ _ _ En Nn). }
    exists message. split; [auto|].
    unfold py_or. rewrite (proj1 Nm), (clean_no_strip _ _ Nm). reflexivity.
  - intro Nq. assert (E : record_feedback question w
                          = (raise_fault (NoAttribute question (py "strip")), w)).
    { unfold record_feedback, bind, lift. now rewrite (clean_no_strip _ _ Nq). }
    split; [exact E|].
    unfold _dispatch_tool, try_except. cbn [normalize_args].
    change (str_eqb (py "record_feedback") (py "record_customer_interest")) with false.
    change (str_eqb (py "record_feedback") (py "record_feedback")) with true.
    cbv iota. unfold bind at 1. unfold lift.
    change (keywords (py "record_feedback") [py "question"]
              (PDict [(py "question", question)]))
      with (Return [(py "question", question)]).
    cbv beta iota.
    change (dict_get [(py "question", question)] (py "question") PNone) with question.
    rewrite E. reflexivity.
Qed.

End ArgumentChecks.

(** ** The credential *)

Lemma startswith_app (s p q : str) :
  startswith s (p ++ q) = true -> startswith s p = true.
Proof.
  revert s. induction p as [|c p IH]; intros [|x s]; simpl; try reflexivity;
    try discriminate.
  intro E. apply andb_prop in E as [-> E]. now apply IH.
Qed.

(** X11. The readiness check holds exactly when the credential, stripped,
    starts with "sk-" and has more than 40 characters: the second prefix
    of the test, "sk-proj-", adds nothing. *)
Theorem provider_ready_iff (w : world) :
  _provider_ready w = true
  <-> startswith (strip (credential w)) (py "sk-") = true
      /\ (40 < length (strip (credential w)))%nat.
Proof.
  unfold _provider_ready. cbv zeta. rewrite andb_true_iff, Nat.ltb_lt, orb_true_iff.
  split; intros [P L]; (split; [|exact L]).
  - destruct P as [P|P]; [exact P|]. now apply (startswith_app _ (py "sk-") (py "proj-")).
  - now left.
Qed.

(** ** Log files only grow *)

Lemma grows_refl (w : world) : grows w w.
Proof. intros p l E. exists []. now rewrite app_nil_r. Qed.

Lemma grows_trans (a b c : world) : grows a b -> grows b c -> grows a c.
Proof.
  intros G1 G2 p l E. destruct (G1 p l E) as (l1 & E1).
  destruct (G2 p _ E1) as (l2 & E2). exists (l1 ++ l2). now rewrite app_assoc.
Qed.

Lemma grows_same_files (w w' : world) : files w' = files w -> grows w w'.
Proof. intros E p l F. exists []. now rewrite E, app_nil_r. Qed.

Lemma appending_ret {A : Type} (a : A) : appending (ret a).
Proof. intro w. apply grows_refl. Qed.

Lemma appending_lift {A : Type} (r : result A) : appending (lift r).
Proof. intro w. apply grows_refl. Qed.

Lemma appending_asks {A : Type} (f : world -> A) : appending (asks f).
Proof. intro w. apply grows_refl. Qed.

Lemma appending_utc_iso : appending _utc_iso.
Proof. intro w. now apply grows_same_files. Qed.

Lemma appending_getcwd : appending getcwd.
Proof. intro w. apply grows_refl. Qed.

Lemma appending_print (t : str) : appending (print t).
Proof.
  intro w. destruct (print_cases t w) as [(e & ->)| ->]; now apply grows_same_files.
Qed.

(** A block in mode ["a"] keeps the lines of its file, also when it fails. *)
Lemma appending_write_line (p : str) (d : line) : appending (write_line ModeA p d).
Proof.
  intros w q l E. destruct (write_line_cases ModeA p d w) as [(x & ->)| ->];
    cbn [snd files log set_files set_faults].
  - unfold file_left. destruct (str_eqb q p) eqn:Q.
    + apply str_eqb_eq in Q. subst q. rewrite E.
      destruct (reached x); cbn [left_behind opened]; eauto;
        exists []; now rewrite app_nil_r.
    + exists []. now rewrite app_nil_r.
  - unfold file_put. destruct (str_eqb q p) eqn:Q.
    + apply str_eqb_eq in Q. subst q. rewrite E. cbn [opened]. eauto.
    + exists []. now rewrite app_nil_r.
Qed.

Lemma appending_bind {A B : Type} (m : M A) (k : A -> M B) :
  appending m -> (forall a, appending (k a)) -> appending (bind m k).
Proof.
  intros Lm Lk w. unfold bind. specialize (Lm w).
  destruct (m w) as [[a|e] w1]; simpl in *; [|exact Lm].
  eapply grows_trans; [exact Lm|apply Lk].
Qed.

Lemma appending_try {A : Type} (m : M A) (h : exn -> M A) :
  appending m -> (forall e, appending (h e)) -> appending (try_except m h).
Proof.
  intros Lm Lh w. unfold try_except. specialize (Lm w).
  destruct (m w) as [[a|e] w1]; simpl in *; [exact Lm|].
  eapply grows_trans; [exact Lm|apply Lh].
Qed.

(** The header is written with mode ["w"] only when the file is missing. *)
Lemma appending_create {B : Type} (p : str) (d : line) (k : M B) :
  appending k ->
  appending (present <- path_exists p ;;
             (if negb present then write_line ModeW p d else ret tt) ;;; k).
Proof.
  intros Lk w. unfold bind at 1. unfold path_exists.
  destruct (files w p) as [l0|] eqn:E; cbn [negb].
  - apply appending_bind; [apply appending_ret|intros []; apply Lk].
  - unfold bind. destruct (write_line_cases ModeW p d w) as [(x & ->)| ->].
    + intros q l F. cbn [snd files log set_files set_faults]. unfold file_left.
      destruct (str_eqb q p) eqn:Q.
      * apply str_eqb_eq in Q. subst q. congruence.
      * exists []. now rewrite app_nil_r.
    + eapply grows_trans; [|apply Lk].
      intros q l F. cbn [files log set_files set_faults]. unfold file_put.
      destruct (str_eqb q p) eqn:Q.
      * apply str_eqb_eq in Q. subst q. congruence.
      * exists []. now rewrite app_nil_r.
Qed.

Ltac appending_steps :=
  repeat first
    [ apply appending_ret | apply appending_lift | apply appending_asks
    | apply appending_utc_iso | apply appending_print
    | apply appending_getcwd | apply appending_write_line
    | apply appending_create
    | apply appending_bind; [|intro]
    | apply appending_try; [|intro]
    | match goal with
      | |- appending (if ?b then _ else _) => destruct b
      | |- appending (let _ := _ in _) => cbv zeta
      end ].

Section AppendOnly.
Context `{Interp}.

Lemma appending_record_customer_interest (email name message : pyval) :
  appending (record_customer_interest email name message).
Proof. unfold record_customer_interest, _append_jsonl. appending_steps. Qed.

Lemma appending_record_feedback (question : pyval) :
  appending (record_feedback question).
Proof. unfold record_feedback, _append_jsonl. appending_steps. Qed.

Lemma appending_dispatch (name : str) (args : pyval) :
  appending (_dispatch_tool name args).
Proof.
  unfold _dispatch_tool. cbv zeta.
  apply appending_try; [|intro e; destruct (exn_is_TypeError e); apply appending_ret].
  destruct (str_eqb name (py "record_customer_interest")).
  - apply appending_bind; [apply appending_lift|intro kw].
    apply appending_record_customer_interest.
  - destruct (str_eqb name (py "record_feedback")); [|apply appending_ret].
    apply appending_bind; [apply appending_lift|intro kw].
    apply appending_record_feedback.
Qed.

(** X12. Whatever the tool name and the arguments, a dispatch never
    shortens or rewrites a file that exists (each keeps what it held,
    possibly followed by new lines) and sends nothing to the provider. *)
Theorem dispatch_only_appends (name : str) (args : pyval) (w : world) :
  let w' := snd (_dispatch_tool name args w) in
  (forall p l, files w p = Some l -> exists l', files w' p = Some (l ++ l'))
  /\ requests_of (trace w') = requests_of (trace w).
Proof.
  cbv zeta. split; [apply appending_dispatch|].
  destruct (local_dispatch name args w) as [_ (evs & -> & R)].
  now rewrite requests_of_app, R, app_nil_r.
Qed.

End AppendOnly.

(** ** A turn of the agent *)

Section TurnFacts.
Context `{Interp}.

(** X13. [run_agent] never raises: for every text, history and world it
    returns a text. *)
Theorem run_agent_returns (user_text : str) (history : option (list pyval)) (w : world) :
  exists s w', run_agent user_text history w = (Return s, w').
Proof.
  unfold run_agent. destruct (_provider_ready w); cbn [negb]; [|eauto].
  unfold try_except.
  match goal with |- context [match ?m w with _ => _ end] => destruct (m w) as [[s|e] w'] end;
    unfold ret; eauto.
Qed.

(** The turn up to the answer to the first request. *)
Lemma run_agent_first (user_text : str) (history : option (list pyval)) (w : world)
    (pairs : list (pyval * pyval)) :
  _provider_ready w = true ->
  client_failure (outside w) = None ->
  _tuplize history = Return pairs ->
  let first := first_request user_text pairs w in
  let w1 := log w (EvRequest first) in
  run_agent user_text history w
  = try_except
      (fun v =>
         match provider (outside w) (requests_of (trace w) ++ [first]) with
         | Raise e => (Raise e, v)
         | Return msg =>
             match msg_tool_calls msg with
             | Some (tc :: tcs) =>
                 (messages <- for_each (tc :: tcs) tool_step
                                (req_messages first ++ [ToolCallsMessage (tc :: tcs)]) ;;
                  final <- chat_create {| req_model := model_name w;
                                          req_messages := messages;
                                          req_tools := None |} ;;
                  ret (content_or_placeholder final)) v
             | _ => (Return (content_or_placeholder msg), v)
             end
         end)
      (fun e => ret (agent_error e)) w1.
Proof.
  intros Ready Client Hist first w1.
  unfold run_agent. rewrite Ready. cbn [negb].
  unfold try_except. unfold bind at 1. unfold make_client. rewrite Client.
  unfold bind at 1. unfold getenv. fold (model_name w).
  unfold bind at 1. unfold asks. unfold bind at 1. unfold lift. rewrite Hist.
  fold (first_messages user_text pairs w). fold (first_request user_text pairs w).
  fold first. unfold bind at 1. unfold chat_create at 1.
  cbn [trace log outside]. rewrite requests_of_app. cbn [requests_of]. fold w1.
  destruct (provider (outside w) _) as [msg|e]; [|reflexivity].
  destruct (msg_tool_calls msg) as [[|tc tcs]|]; reflexivity.
Qed.

Lemma run_agent_no_client (user_text : str) (history : option (list pyval)) (w : world)
    (e : exn) :
  _provider_ready w = true ->
  client_failure (outside w) = Some e ->
  run_agent user_text history w = (Return (agent_error e), w).
Proof.
  intros Ready Client. unfold run_agent. rewrite Ready. cbn [negb].
  unfold try_except, bind, make_client. now rewrite Client.
Qed.

Lemma run_agent_bad_history (user_text : str) (history : option (list pyval)) (w : world)
    (e : exn) :
  _provider_ready w = true ->
  client_failure (outside w) = None ->
  _tuplize history = Raise e ->
  run_agent user_text history w = (Return (agent_error e), w).
Proof.
  intros Ready Client Hist. unfold run_agent. rewrite Ready. cbn [negb].
  unfold try_except. unfold bind at 1. unfold make_client. rewrite Client.
  unfold bind at 1. unfold getenv. unfold bind at 1. unfold asks.
  unfold bind at 1. unfold lift. now rewrite Hist.
Qed.

(** X14. With a usable credential, a failure before the first answer
    becomes the text "(Agent error) <type>: <message>": when the client
    cannot be built, and when the history cannot be read, nothing has
    happened; when the first request fails, that request (system prompt,
    history, user text, with the tools) is the only thing that has
    happened. *)
Theorem agent_failures (user_text : str) (history : option (list pyval)) (w : world) :
  _provider_ready w = true ->
  (forall e, client_failure (outside w) = Some e ->
             run_agent user_text history w = (Return (agent_error e), w))
  /\ (forall e, client_failure (outside w) = None ->
                _tuplize history = Raise e ->
                run_agent user_text history w = (Return (agent_error e), w))
  /\ (forall pairs e,
        client_failure (outside w) = None ->
        _tuplize history = Return pairs ->
        provider (outside w) (requests_of (trace w) ++ [first_request user_text pairs w])
        = Raise e ->
        run_agent user_text history w
        = (Return (agent_error e), log w (EvRequest (first_request user_text pairs w)))).
Proof.
  intro Ready. split; [|split].
  - intros e Client. now apply run_agent_no_client.
  - intros e Client Hist. now apply run_agent_bad_history.
  - intros pairs e Client Hist Fail.
    rewrite (run_agent_first user_text history w pairs Ready Client Hist).
    cbv zeta. unfold try_except. now rewrite Fail.
Qed.

(** X15. With a usable credential, when the first answer carries no tool
    call (none, or an empty list), [run_agent] returns its content (the
    placeholder, when it has none) after exactly one request: the system
    prompt, the history pairs as messages, the user text, with the tools
    declared. *)
Theorem direct_answer (user_text : str) (history : option (list pyval)) (w : world)
    (pairs : list (pyval * pyval)) (msg : reply) :
  _provider_ready w = true ->
  client_failure (outside w) = None ->
  _tuplize history = Return pairs ->
  provider (outside w) (requests_of (trace w) ++ [first_request user_text pairs w])
  = Return msg ->
  msg_tool_calls msg = None \/ msg_tool_calls msg = Some [] ->
  run_agent user_text history w
  = (Return (content_or_placeholder msg),
     log w (EvRequest (first_request user_text pairs w))).
Proof.
  intros Ready Client Hist Reply Calls.
  rewrite (run_agent_first user_text history w pairs Ready Client Hist).
  cbv zeta. unfold try_except. rewrite Reply.
  destruct Calls as [-> | ->]; reflexivity.
Qed.

Lemma round_grows (w w2 : world) (tcs : list tool_call) (rs : list str) :
  round w tcs rs w2 -> grows w w2.
Proof.
  induction 1 as [|w tc tcs r w1 rs w2 D _ IH]; [apply grows_refl|].
  eapply grows_trans; [|exact IH].
  pose proof (appending_dispatch (fn_name tc) (parse_arguments tc) w) as L.
  now rewrite D in L.
Qed.

(** X16. Whatever the inputs, a turn leaves the setting as it was, never
    shortens or rewrites a file that exists, and adds to the trace at most
    two requests to the provider. *)
Theorem turn_is_bounded (user_text : str) (history : option (list pyval)) (w : world) :
  let w' := snd (run_agent user_text history w) in
  outside w' = outside w
  /\ (forall p l, files w p = Some l -> exists l', files w' p = Some (l ++ l'))
  /\ exists evs, trace w' = trace w ++ evs /\ (length (requests_of evs) <= 2)%nat.
Proof.
  cbv zeta. change (bounded_turn w (snd (run_agent user_text history w))).
  assert (Still : bounded_turn w w).
  { split; [reflexivity|]. split; [apply grows_refl|]. exists [].
    rewrite app_nil_r. split; [reflexivity|simpl; lia]. }
  destruct (_provider_ready w) eqn:Ready;
    [|unfold run_agent; rewrite Ready; exact Still].
  destruct (client_failure (outside w)) as [e|] eqn:Client.
  { rewrite (run_agent_no_client user_text history w e Ready Client). exact Still. }
  destruct (_tuplize history) as [pairs|e] eqn:Hist.
  2:{ rewrite (run_agent_bad_history user_text history w e Ready Client Hist).
      exact Still. }
  rewrite (run_agent_first user_text history w pairs Ready Client Hist). cbv zeta.
  set (first := first_request user_text pairs w). set (w1 := log w (EvRequest first)).
  assert (One : bounded_turn w w1).
  { split; [reflexivity|]. split; [now apply grows_same_files|].
    exists [EvRequest first]. split; [reflexivity|simpl; lia]. }
  unfold try_except.
  destruct (provider (outside w) _) as [msg|e]; [|exact One].
  destruct (msg_tool_calls msg) as [[|tc tcs]|]; [exact One| |exact One].
  destruct (for_each_round (tc :: tcs) (req_messages first ++ [ToolCallsMessage (tc :: tcs)])
              w1) as (rs & w2 & R & F).
  unfold bind at 1. rewrite F. unfold bind at 1. unfold chat_create.
  destruct (round_quiet _ _ _ _ R) as [O (evs & T & Q)].
  pose proof (round_grows _ _ _ _ R) as G.
  set (w3 := log w2 _).
  assert (Two : bounded_turn w w3).
  { split; [exact O|]. split.
    - eapply grows_trans; [|eapply grows_trans; [exact G|now apply grows_same_files]].
      now apply grows_same_files.
    - eexists. subst w3. cbn [trace log]. rewrite T. subst w1. cbn [trace log].
      rewrite <- !app_assoc. split; [reflexivity|].
      rewrite !requests_of_app, Q. simpl. lia. }
  match goal with |- context [provider ?o ?l] => destruct (provider o l) end;
    exact Two.
Qed.

(** X17. A tool call for a declared tool whose argument text (or "{}" when
    there is none) does not parse, or parses to a value that is neither
    text nor a non-empty mapping, is answered like a call without
    arguments: one tool message with the argument error for all required
    parameters is appended, and nothing else happens. *)
Theorem unusable_arguments_are_none
    (decl : tool_decl) (tc : tool_call) (messages : list message) (w : world) :
  In decl TOOL_SPEC ->
  fn_name tc = tool_name decl ->
  (exists e, json_loads (arguments_text tc) = Raise e)
  \/ (exists v, json_loads (arguments_text tc) = Return v
                /\ (forall s, v <> PStr s) /\ (forall d, v = PDict d -> d = [])) ->
  tool_step messages tc w
  = (Return (messages
             ++ [ToolMessage (tc_id tc) (fn_name tc)
                   (argument_error (fn_name tc)
                      (MissingArguments (fn_name tc) (tool_required decl)))]), w).
Proof.
  intros D Nm Bad.
  assert (E : normalize_args (parse_arguments tc) = PDict []).
  { unfold parse_arguments. fold (arguments_text tc).
    destruct Bad as [(e & ->)|(v & -> & Ns & Nd)]; [reflexivity|].
    destruct v; try reflexivity.
    - exfalso. now apply (Ns s).
    - now rewrite (Nd entries eq_refl). }
  unfold tool_step, bind.
  assert (R : _dispatch_tool (fn_name tc) (parse_arguments tc) w
              = _dispatch_tool (fn_name tc) (PDict []) w).
  { unfold _dispatch_tool. now rewrite E. }
  rewrite R, Nm, (dispatch_no_arguments decl w D). reflexivity.
Qed.

End TurnFacts.

(** ** Histories in pair form, and back to messages *)

Section HistoryFacts.
Context `{Interp}.

Lemma side_str (o : option str) : py_str (py_or (side o) (PStr [])) = side_text o.
Proof. destruct o as [[|c s]|]; cbn; apply py_str_str. Qed.

(** X18. A history whose items are pairs (lists or tuples of two, each
    side text or [None]) is read pair by pair: text stays, [None] and the
    empty text become the empty text. *)
Theorem tuplize_pair_form (h : list pyval) (ps : list (option str * option str)) :
  Forall2 pair_item h ps ->
  _tuplize (Some h)
  = Return (map (fun p => (PStr (side_text (fst p)), PStr (side_text (snd p)))) ps).
Proof.
  intro F.
  assert (Map : map_result
                  (fun item =>
                     match unpack2 item with
                     | Raise e => Raise e
                     | Return (u, a) =>
                         Return (PStr (py_str (py_or u (PStr []))),
                                 PStr (py_str (py_or a (PStr []))))
                     end) h
                = Return (map (fun p => (PStr (side_text (fst p)),
                                         PStr (side_text (snd p)))) ps)).
  { induction F as [|item p h ps P F IH]; [reflexivity|].
    cbn [map_result map]. rewrite IH.
    destruct P as [-> | ->]; cbn [unpack2]; now rewrite !side_str. }
  destruct F as [|item p h ps P F]; [reflexivity|].
  unfold _tuplize. destruct P as [-> | ->]; exact Map.
Qed.

Lemma pair_up_exchanges (ps : list (str * str)) :
  pair_up None (flat_map exchange ps) = ps.
Proof.
  induction ps as [|[u a] ps IH]; [reflexivity|].
  etransitivity; [exact (pair_up_split None [] (flat_map exchange ps) u a)|].
  cbn [pair_up app]. now rewrite IH.
Qed.

(** X19. A history of role-tagged messages that alternates user and
    assistant, with no empty content, goes through [_tuplize] and back into
    the request unchanged: the messages sent are the user and the assistant
    message of each exchange, in order. *)
Theorem history_round_trip (h : list pyval) (ps : list (str * str)) :
  Forall2 tagged h (flat_map exchange ps) ->
  Forall (fun ua => fst ua <> [] /\ snd ua <> []) ps ->
  exists pairs,
    _tuplize (Some h) = Return pairs
    /\ history_messages pairs = map turn_message (flat_map exchange ps).
Proof.
  intros T N. exists (map as_values ps). split.
  - rewrite (tuplize_tagged _ _ T). now rewrite pair_up_exchanges.
  - clear T. induction N as [|[u a] ps [Nu Na] N IH]; [reflexivity|].
    cbn [map history_messages flat_map as_values fst snd exchange app] in *.
    unfold history_messages in IH. rewrite IH.
    destruct u; [congruence|]. destruct a; [congruence|]. reflexivity.
Qed.

End HistoryFacts.

(** ** Business context *)

(** X20. The business context has no whitespace at either end.  Without
    the text file, and without the PDF or the PDF reader, it is empty; with
    the text file only, it is the stripped text of the file. *)
Theorem business_context_degrades (docs : documents) (txt_path pdf_path : str) :
  (forall t, load_business_context docs txt_path pdf_path = Return t -> trimmed t)
  /\ (text_files docs txt_path = None ->
      pdf_reader docs = false \/ pdf_files docs pdf_path = None ->
      load_business_context docs txt_path pdf_path = Return [])
  /\ (forall txt, text_files docs txt_path = Some (Return txt) ->
                  pdf_reader docs = false \/ pdf_files docs pdf_path = None ->
                  load_business_context docs txt_path pdf_path = Return (strip txt)).
Proof.
  assert (NoPdf : pdf_reader docs = false \/ pdf_files docs pdf_path = None ->
                  _read_pdf docs pdf_path = Return []).
  { unfold _read_pdf. intros [-> | ->]; [reflexivity|].
    now destruct (pdf_reader docs). }
  split; [|split].
  - intros t. unfold load_business_context.
    destruct (_read_txt docs txt_path); [|discriminate].
    destruct (_read_pdf docs pdf_path); [|discriminate].
    intros [= <-]. apply strip_trimmed.
  - intros Nt Np. unfold load_business_context, _read_txt.
    now rewrite Nt, (NoPdf Np).
  - intros txt Et Np. unfold load_business_context, _read_txt.
    rewrite Et, (NoPdf Np). now destruct txt.
Qed.

Lemma pages_first_failure (before rest : list (result (option str))) (e : exn) :
  Forall (fun page => exists t, page = Return t) before ->
  map_result page_text (before ++ Raise e :: rest) = Raise e.
Proof.
  induction 1 as [|page before (t & ->) F IH]; [reflexivity|].
  cbn [app map_result]. rewrite IH. now destruct t.
Qed.

(** X21. With the reader present, a PDF that cannot be opened, or one of
    whose pages fails to give its text, makes [load_business_context]
    raise that failure (for pages, the first one) even though the text
    file was read. *)
Theorem pdf_failure_propagates (docs : documents) (txt_path pdf_path : str)
    (txt : str) (e : exn) :
  text_files docs txt_path = Some (Return txt) ->
  pdf_reader docs = true ->
  pdf_files docs pdf_path = Some (Raise e)
  \/ (exists before rest,
        pdf_files docs pdf_path = Some (Return (before ++ Raise e :: rest))
        /\ Forall (fun page => exists t, page = Return t) before) ->
  load_business_context docs txt_path pdf_path = Raise e.
Proof.
  intros Et Rd Bad. unfold load_business_context, _read_txt, _read_pdf.
  rewrite Et, Rd. cbn [negb].
  destruct Bad as [-> |(before & rest & -> & Ok)]; [reflexivity|].
  now rewrite (pages_first_failure before rest e Ok).
Qed.

(** * Runs *)

Section Runs.
#[local] Existing Instance sample_interp.

(** C2 as first stated fails on [long_email]: the address has whitespace
    inside, past the 199 characters that the truncation keeps, and the lead
    is saved, its address cut and marked with the ellipsis. *)
Lemma long_email_counterexample :
  has_space (strip long_email) = true
  /\ (let run := record_customer_interest (PStr long_email) (PStr (py "Jane Doe"))
                   (PStr (py "Pricing")) sample_world in
      fst run = Return (py "Lead saved.")
      /\ fst run <> Return (py "Invalid email address.")
      /\ files (snd run) (LEADS_CSV sample_world)
         = Some [header_row;
                 CsvRow [sample_clock 0; py "a@b." ++ repeat 99%N 195 ++ [ELLIPSIS];
                         py "Jane Doe"; py "Pricing"]]).
Proof.
  split; [reflexivity|]. cbv zeta.
  assert (E : fst (record_customer_interest (PStr long_email) (PStr (py "Jane Doe"))
                     (PStr (py "Pricing")) sample_world) = Return (py "Lead saved."))
    by (vm_compute; reflexivity).
  split; [exact E|]. split; [rewrite E; intro D; vm_compute in D; discriminate|].
  vm_compute. reflexivity.
Qed.

(** C2 at an address without an at sign. *)
Lemma malformed_email_witness :
  record_customer_interest (PStr (py "jane.example.com")) (PStr (py "Jane Doe"))
    (PStr (py "Pricing")) sample_world
  = (Return (py "Invalid email address."), sample_world).
Proof.
  apply malformed_email_rejected. left. intro I. apply has_at_in in I. discriminate.
Defined.

(** C8 at a name of three spaces, with an address that is accepted. *)
Lemma blank_name_witness :
  record_customer_interest (PStr (py "jane@x.com")) (PStr (py "   "))
    (PStr (py "Pricing")) sample_world
  = (Return (py "Please provide a name."), sample_world).
Proof.
  exact (blank_name_rejected (py "jane@x.com") (py "   ") (py "Pricing")
           sample_world eq_refl).
Defined.

(** C8 as first stated fails when the address is bad as well: the answer is
    the one about the address. *)
Lemma blank_name_counterexample :
  record_customer_interest (PStr (py "not-an-email")) (PStr [])
    (PStr (py "Pricing")) sample_world
  = (Return (py "Invalid email address."), sample_world)
  /\ py "Invalid email address." <> py "Please provide a name.".
Proof. split; [reflexivity|discriminate]. Qed.

(** C3 as first stated fails on a message with a leading space (stored
    without it), on the empty message (stored as the default text), and on
    a message of 805 characters of which 10 are leading spaces (stored in
    795 characters, without the ellipsis). *)
Lemma stored_message_counterexample :
  (_clean (py_or (PStr (py " hi")) (PStr (py "General inquiry"))) 800
   = Return (py "hi")
   /\ ~ truncation_as_claimed (py " hi") (py "hi"))
  /\ (_clean (py_or (PStr []) (PStr (py "General inquiry"))) 800
      = Return (py "General inquiry")
      /\ ~ truncation_as_claimed [] (py "General inquiry"))
  /\ (_clean (py_or (PStr padded_message) (PStr (py "General inquiry"))) 800
      = Return (repeat 97%N 795)
      /\ ~ truncation_as_claimed padded_message (repeat 97%N 795)).
Proof.
  repeat split; try (vm_compute; reflexivity).
  - intros [_ Short]. assert (L : (length (py " hi") <= 800)%nat) by (vm_compute; lia).
    apply Short in L. discriminate.
  - intros [_ Short]. assert (L : (@length char [] <= 800)%nat) by (simpl; lia).
    apply Short in L. discriminate.
  - intros [Long _].
    assert (L : (800 < length padded_message)%nat) by (vm_compute; lia).
    apply Long in L as [L _]. vm_compute in L. discriminate.
Qed.

(** C3 at a lead that is saved. *)
Lemma stored_message_witness :
  exists stored ts e n rows lines,
    _clean (py_or (PStr (py " hi")) (PStr (py "General inquiry"))) 800 = Return stored
    /\ files (snd (record_customer_interest (PStr (py "jane@x.com"))
                     (PStr (py "Jane Doe")) (PStr (py " hi")) sample_world))
         (LEADS_CSV sample_world)
       = Some (rows ++ [CsvRow [ts; e; n; stored]])
    /\ files (snd (record_customer_interest (PStr (py "jane@x.com"))
                     (PStr (py "Jane Doe")) (PStr (py " hi")) sample_world))
         (LEADS_JSONL sample_world)
       = Some (lines ++ [JsonLine [(py "timestamp", ts); (py "email", e);
                                   (py "name", n); (py "message", stored)]])
    /\ let t := collapse (strip (default_message (py " hi"))) in
       ((800 < length t)%nat ->
        stored = firstn 799 t ++ [ELLIPSIS] /\ length stored = 800%nat)
       /\ ((length t <= 800)%nat -> stored = t).
Proof.
  exact (stored_message_length (PStr (py "jane@x.com")) (PStr (py "Jane Doe"))
           (py " hi") sample_world _ eq_refl).
Defined.

(** C7 as first stated fails on a key with a space before it: the value
    starts with no accepted prefix, and the provider is contacted. *)
Lemma padded_credential_counterexample :
  unusable_as_claimed (credential padded_key_world)
  /\ (let run := run_agent (py "What are your hours?") None padded_key_world in
      fst run = Return (py "We're open 9-5")
      /\ length (requests_of (trace (snd run))) = 1%nat
      /\ fst run <> Return _SETUP_MSG).
Proof.
  split; [right; left; split; reflexivity|].
  cbv zeta. split; [vm_compute; reflexivity|]. split; [vm_compute; reflexivity|].
  intro E. vm_compute in E. discriminate.
Qed.

(** C7 at a credential with another prefix. *)
Lemma unusable_credential_witness :
  run_agent (py "hi") None wrong_key_world = (Return _SETUP_MSG, wrong_key_world)
  /\ forall w2, credential w2 = credential wrong_key_world ->
                _provider_ready w2 = _provider_ready wrong_key_world.
Proof.
  apply unusable_credential_stops. right. left. split; reflexivity.
Defined.

(** C1 at a round of three calls. *)
Lemma tool_round_witness :
  exists results w2,
    round (log tool_world (EvRequest sample_first)) sample_calls results w2
    /\ length results = 3%nat.
Proof.
  destruct (tool_round_then_second_call (py "Do you accept Bitcoin?") None tool_world []
              {| msg_content := None; msg_tool_calls := Some sample_calls |}
              call_1 [call_2; call_3]
              eq_refl eq_refl eq_refl eq_refl eq_refl)
    as (results & w2 & evs & R & L & _).
  exists results, w2. split; [exact R|exact L].
Defined.

(** The same round, run: the three results, in order, in the messages of
    the second request, and the one line that the third call has logged. *)
Example tool_round_run :
  let run := run_agent (py "Do you accept Bitcoin?") None tool_world in
  fst run = Return (py "I have passed your question to the team.")
  /\ map req_tools (requests_of (trace (snd run))) = [Some TOOL_SPEC; None]
  /\ skipn 3 (req_messages (last (requests_of (trace (snd run))) sample_first))
     = [ ToolMessage (py "call_1") (py "lookup_hours") (py "Unknown tool: lookup_hours");
         ToolMessage (py "call_2") (py "record_customer_interest")
           (py "Tool 'record_customer_interest' argument error: record_customer_interest() missing 3 required positional arguments: 'email', 'name', and 'message'");
         ToolMessage (py "call_3") (py "record_feedback") (py "Feedback recorded.") ]
  /\ files (snd run) (FEEDBACK_JSONL tool_world)
     = Some [JsonLine [(py "timestamp", sample_clock 0);
                       (py "question", py "Do you accept Bitcoin?")]].
Proof. vm_compute. repeat split; reflexivity. Qed.

(** C4 at the text [[1]]. *)
Lemma parsed_list_witness :
  normalize_args (PStr (py "[1]")) = PList [PInt 1]
  /\ normalize_args (PStr (py "[1]")) <> PDict []
  /\ _dispatch_tool (py "record_feedback") (PStr (py "[1]")) sample_world
     = (Return (py "Tool 'record_feedback' argument error: "
                ++ describe (NotAMapping (py "record_feedback") (PList [PInt 1]))),
        sample_world)
  /\ _dispatch_tool (py "record_feedback") (PDict []) sample_world
     = (Return (py "Tool 'record_feedback' argument error: "
                ++ describe (MissingArguments (py "record_feedback") [py "question"])),
        sample_world).
Proof.
  apply parsed_list_is_kept; [discriminate|reflexivity|intros d; discriminate].
Defined.

Lemma tagged_dict_tagged (r c : string) :
  tagged (tagged_dict r c) {| role := py r; content := py c |}.
Proof. eexists. split; [reflexivity|]. split; reflexivity. Qed.

(** C6 at a history with two user messages in a row and one at the end. *)
Lemma tuplize_witness :
  _tuplize (Some [tagged_dict "user" "Hi"; tagged_dict "user" "Are you open?";
                  tagged_dict "assistant" "We're open 9-5"; tagged_dict "user" "Thanks"])
  = Return [(PStr (py "Are you open?"), PStr (py "We're open 9-5"))].
Proof.
  exact (proj1 (proj2 (proj2 tuplize_pairs_turns)) _ _
           (Forall2_cons _ _ (tagged_dict_tagged "user" "Hi")
              (Forall2_cons _ _ (tagged_dict_tagged "user" "Are you open?")
                 (Forall2_cons _ _ (tagged_dict_tagged "assistant" "We're open 9-5")
                    (Forall2_cons _ _ (tagged_dict_tagged "user" "Thanks")
                       (Forall2_nil _)))))).
Defined.

(** C9 as first stated fails when standard output refuses the line of the
    question (here an ASCII output and a question with a euro sign): the
    exception of [print] leaves [record_feedback], and no write has been
    attempted.  It fails too when the primary write fails and the working
    directory cannot be read: no fallback write is attempted. *)
Lemma feedback_escape_counterexample :
  (fst (record_feedback (PStr euro_question) ascii_world) = Raise encode_error
   /\ file_ops (trace (snd (record_feedback (PStr euro_question) ascii_world))) = [])
  /\ file_ops (trace (snd (record_feedback (PStr euro_question) adrift_world)))
     = [(py "/app/logs/feedback.jsonl", Some read_only)].
Proof. vm_compute. repeat split; reflexivity. Qed.

(** C9 at a question for which both writes fail. *)
Lemma feedback_fallback_witness :
  fst (record_feedback (PStr (py "Do you accept Bitcoin?")) sealed_world)
  = Return (py "Failed to record feedback: [Errno 13] Permission denied | fallback error: [Errno 28] No space left on device")
  /\ file_ops (trace (snd (record_feedback (PStr (py "Do you accept Bitcoin?"))
                             sealed_world)))
     = [(py "/app/logs/feedback.jsonl", Some read_only);
        (py "/srv/logs/feedback.jsonl", Some disk_full)].
Proof.
  destruct (proj2 (@feedback_fallback sample_interp (py "Do you accept Bitcoin?")
                     sealed_world (Forall_nil _)) _ _ eq_refl eq_refl)
    as [Ops Answer].
  split; [exact Answer|exact Ops].
Defined.

(** X22 on an output that cannot encode the arrow: the question is
    recorded twice and the answer reports a failure. *)
Lemma print_failure_witness :
  exists w',
    record_feedback (PStr (py "Do you accept Bitcoin?")) legacy_world
    = (Return (both_failed arrow_error arrow_error), w')
    /\ files w' (py "/app/logs/feedback.jsonl")
       = Some [JsonLine [(py "timestamp", sample_clock 0);
                         (py "question", py "Do you accept Bitcoin?")]]
    /\ files w' (py "/srv/logs/feedback.jsonl")
       = Some [JsonLine [(py "timestamp", sample_clock 0);
                         (py "question", py "Do you accept Bitcoin?")]].
Proof.
  assert (D : fallback_path (py "/srv") <> FEEDBACK_JSONL legacy_world) by discriminate.
  exact (@print_failure_writes_twice sample_interp (py "Do you accept Bitcoin?")
           legacy_world arrow_error [Some arrow_error] (py "/srv")
           eq_refl eq_refl (Forall_nil _) eq_refl D).
Defined.

(** X2 at a name with a line feed and spaces around it. *)
Lemma clean_bounds_witness :
  _clean (PStr (py "  Jane" ++ [LF] ++ py "Doe ")) 200 = Return (py "Jane Doe")
  /\ (Z.of_nat (length (py "Jane Doe")) <= 200)%Z
  /\ ~ In CR (py "Jane Doe") /\ ~ In LF (py "Jane Doe") /\ trimmed (py "Jane Doe").
Proof.
  split; [reflexivity|].
  apply (clean_bounds (PStr (py "  Jane" ++ [LF] ++ py "Doe ")) 200); [lia|reflexivity].
Defined.

(** X3 at a first lead: the header and the row. *)
Lemma lead_recorded_witness :
  exists w',
    record_customer_interest (PStr (py "Jane@Example.com")) (PStr (py " Jane Doe"))
      (PStr (py "Pricing")) sample_world
    = (Return (py "Lead saved."), w')
    /\ files w' (py "/app/logs/leads.csv")
       = Some [header_row;
               CsvRow [sample_clock 0; py "jane@example.com"; py "Jane Doe"; py "Pricing"]].
Proof.
  destruct (@lead_recorded sample_interp (py "Jane@Example.com") (py " Jane Doe") (py "Pricing")
              sample_world eq_refl eq_refl (Forall_nil _) (Forall_nil _))
    as (w' & E & C & _).
  exists w'. split; [exact E|exact C].
Defined.


(** X5 on a disk that fills up after the row. *)
Lemma mirror_failure_witness :
  exists w',
    record_customer_interest (PStr (py "jane@example.com")) (PStr (py "Jane Doe"))
      (PStr (py "Pricing")) started_world
    = (Raise disk_full, w')
    /\ files w' (py "/app/logs/leads.csv")
       = Some [header_row;
               CsvRow [sample_clock 0; py "jane@example.com"; py "Jane Doe"; py "Pricing"]]
    /\ files w' (py "/app/logs/leads.jsonl")
       = Some [Torn (JsonLine [(py "timestamp", sample_clock 0);
                               (py "email", py "jane@example.com");
                               (py "name", py "Jane Doe");
                               (py "message", py "Pricing")])].
Proof.
  exact (mirror_failure_keeps_row (py "jane@example.com") (py "Jane Doe") (py "Pricing")
           started_world [header_row] full_at_flush []
           eq_refl eq_refl (Forall_nil _) eq_refl eq_refl).
Defined.

(** X10 at the question [5]. *)
Lemma wrong_type_witness :
  record_feedback (PInt 5) sample_world
  = (raise_fault (NoAttribute (PInt 5) (py "strip")), sample_world)
  /\ _dispatch_tool (py "record_feedback") (PDict [(py "question", PInt 5)]) sample_world
     = (Return (py "Tool 'record_feedback' failed: 'int' object has no attribute 'strip'"),
        sample_world).
Proof.
  assert (N : no_strip (PInt 5)) by (split; [reflexivity|intros s; discriminate]).
  exact (proj2 (wrong_type_writes_nothing PNone PNone PNone (PInt 5) sample_world) N).
Defined.

(** X6 at a question of three spaces. *)
Lemma blank_question_witness :
  record_feedback (PStr (py "   ")) sample_world
  = (Return (py "Feedback requires a non-empty question."), sample_world).
Proof.
  apply blank_question_rejected. right. exists (py "   "). split; reflexivity.
Defined.

(** X7 at a first question. *)
Lemma feedback_recorded_witness :
  exists w',
    record_feedback (PStr (py "Do you accept Bitcoin?")) sample_world
    = (Return (py "Feedback recorded."), w')
    /\ files w' (py "/app/logs/feedback.jsonl")
       = Some [JsonLine [(py "timestamp", sample_clock 0);
                         (py "question", py "Do you accept Bitcoin?")]].
Proof.
  destruct (@feedback_recorded sample_interp (py "Do you accept Bitcoin?") sample_world
              eq_refl (Forall_nil _) (Forall_nil _)) as (w' & E & F & _).
  exists w'. split; [exact E|exact F].
Defined.

(** X8 when the primary file cannot be written. *)
Lemma feedback_falls_back_witness :
  exists w',
    record_feedback (PStr (py "Do you accept Bitcoin?")) locked_world
    = (Return (py "Feedback recorded (fallback path used: /srv/logs/feedback.jsonl)"), w')
    /\ files w' (py "/srv/logs/feedback.jsonl")
       = Some [JsonLine [(py "timestamp", sample_clock 0);
                         (py "question", py "Do you accept Bitcoin?")]]
    /\ files w' (py "/app/logs/feedback.jsonl") = None.
Proof.
  destruct (@feedback_falls_back sample_interp (py "Do you accept Bitcoin?") locked_world
              {| raised := read_only; reached := Unopened |} [] (py "/srv")
              eq_refl (Forall_nil _) eq_refl eq_refl (Forall_nil _))
    as (w' & E & F & O & _).
  exists w'. split; [exact E|]. split; [exact F|].
  apply (O (py "/app/logs/feedback.jsonl")). discriminate.
Defined.

(** X9 at a question with a key too many. *)
Lemma dispatch_checks_witness :
  exists k,
    In k (map fst urgent_question) /\ ~ In k [py "question"]
    /\ _dispatch_tool (py "record_feedback") (PDict urgent_question) sample_world
       = (Return (argument_error (py "record_feedback")
                    (UnexpectedKeyword (py "record_feedback") k)), sample_world).
Proof.
  apply (proj1 (dispatch_checks_arguments feedback_decl urgent_question sample_world
                  (or_intror (or_introl eq_refl)))
           (py "urgent")).
  - right. left. reflexivity.
  - intros [E|[]]. discriminate E.
Defined.

(** X12 at a lead, on a CSV file that has its header. *)
Lemma dispatch_appends_witness :
  exists l',
    files (snd (_dispatch_tool (py "record_customer_interest")
                  (PDict [(py "email", PStr (py "jane@example.com"));
                          (py "name", PStr (py "Jane Doe"));
                          (py "message", PNone)]) started_world))
      (py "/app/logs/leads.csv")
    = Some ([header_row] ++ l').
Proof.
  exact (proj1 (dispatch_only_appends (py "record_customer_interest")
                  (PDict [(py "email", PStr (py "jane@example.com"));
                          (py "name", PStr (py "Jane Doe"));
                          (py "message", PNone)]) started_world)
           (py "/app/logs/leads.csv") [header_row] eq_refl).
Defined.

(** X14 at a provider that cannot be reached. *)
Lemma agent_failures_witness :
  run_agent (py "When are you open?") None offline_world
  = (Return (py "(Agent error) APIConnectionError: Connection error."),
     log offline_world (EvRequest (first_request (py "When are you open?") [] offline_world))).
Proof.
  exact (proj2 (proj2 (agent_failures (py "When are you open?") None offline_world eq_refl))
           [] connection_error eq_refl eq_refl eq_refl).
Defined.

(** X15 at a question that is answered in text. *)
Lemma direct_answer_witness :
  run_agent (py "When are you open?") None sample_world
  = (Return (py "We're open 9-5"),
     log sample_world (EvRequest (first_request (py "When are you open?") [] sample_world))).
Proof.
  exact (direct_answer (py "When are you open?") None sample_world []
           {| msg_content := Some (py "We're open 9-5"); msg_tool_calls := None |}
           eq_refl eq_refl eq_refl eq_refl (or_introl eq_refl)).
Defined.

(** X18 at a list and a tuple, each with one side missing. *)
Lemma tuplize_pair_witness :
  _tuplize (Some [PList [PStr (py "Hi"); PNone]; PTuple [PNone; PStr (py "Hello")]])
  = Return [(PStr (py "Hi"), PStr []); (PStr [], PStr (py "Hello"))].
Proof.
  apply (tuplize_pair_form _ [(Some (py "Hi"), None); (None, Some (py "Hello"))]).
  constructor; [left; reflexivity|].
  constructor; [right; reflexivity|constructor].
Defined.

(** X19 at one exchange. *)
Lemma history_round_trip_witness :
  exists pairs,
    _tuplize (Some [tagged_dict "user" "Hi"; tagged_dict "assistant" "Hello"])
    = Return pairs
    /\ history_messages pairs
       = [ChatMessage (py "user") (PStr (py "Hi"));
          ChatMessage (py "assistant") (PStr (py "Hello"))].
Proof.
  apply (history_round_trip _ [(py "Hi", py "Hello")]).
  - exact (Forall2_cons _ _ (tagged_dict_tagged "user" "Hi")
             (Forall2_cons _ _ (tagged_dict_tagged "assistant" "Hello") (Forall2_nil _))).
  - constructor; [split; discriminate|constructor].
Defined.

(** X17 at a call whose arguments are no JSON. *)
Lemma unusable_arguments_witness :
  tool_step [] call_4 sample_world
  = (Return [ToolMessage (py "call_4") (py "record_feedback")
               (argument_error (py "record_feedback")
                  (MissingArguments (py "record_feedback") [py "question"]))],
     sample_world).
Proof.
  assert (Bad : exists e, json_loads (arguments_text call_4) = Raise e)
    by (eexists; reflexivity).
  exact (unusable_arguments_are_none feedback_decl call_4 [] sample_world
           (or_intror (or_introl eq_refl)) eq_refl (or_introl Bad)).
Defined.

(** X20 at a summary that ends in a line feed. *)
Lemma business_context_witness :
  load_business_context text_only summary_path about_path
  = Return (py "CedarCare Wellness Clinics").
Proof.
  exact (proj2 (proj2 (business_context_degrades text_only summary_path about_path))
           _ eq_refl (or_introl eq_refl)).
Defined.

(** X21 at a PDF whose second page cannot be read. *)
Lemma pdf_failure_witness :
  load_business_context damaged_pdf summary_path about_path = Raise damaged_page.
Proof.
  apply (pdf_failure_propagates damaged_pdf summary_path about_path
           (py "CedarCare Wellness Clinics" ++ [LF]) damaged_page eq_refl eq_refl).
  right. exists [Return (Some (py "About us"))], [Return None].
  split; [reflexivity|]. constructor; [eexists; reflexivity|constructor].
Defined.

End Runs.
